(** * Lead intake handlers of cx-portal: a shallow embedding

    The repository holds several drafts of one Cloudflare Worker.  Each draft
    is an [async] function from an HTTP request to an HTTP response that may
    call the Turnstile verification service and write one record to a
    key-value namespace.  The drafts embedded here are

    - [BackupWorker.fetch]        (src/backup_worker.js),
    - [Part000.fetch]             (src/unnamed/part_000),
    - [ConfigExample.fetch]       (the worker at the end of src/config.example.js),
    - [WorkerCorsComplete.handleRequest] (src/worker-cors-complete.js).

    (src/worker-fix-guide.js and src/debug-worker.js answer every POST without
    asking the verification service and without a namespace; they are left
    out.)

    [async]/[await] code is sequential, so it is written in a state and
    exception monad [M]: the state holds the key-value namespace, the number of
    identifiers drawn so far and the trace of effects; a rejected promise or a
    thrown error is the outcome [Throw]. *)

From Stdlib Require Import ZArith String Ascii List.
From stdpp Require Import base option list strings pretty gmap.
Import ListNotations.
Local Open Scope string_scope.
Local Open Scope Z_scope.

(** ** JavaScript data *)

#[local] Set Warnings "-register-all".

(** Values that [JSON.parse] produces and [JSON.stringify] consumes.  Numbers
    are only ever tested for truthiness by the handlers, where every
    non-integer behaves like a non-zero integer, so they are kept as [Z].  An
    object is its list of fields, in source order. *)
Inductive json : Type :=
| JNull
| JBool (b : bool)
| JNum (n : Z)
| JStr (s : string)
| JArr (items : list json)
| JObj (fields : list (string * json)).

(** A thrown value: an [Error] with its constructor name and message. *)
Record JsError : Type := mkError { err_name : string; err_message : string }.

(** What a form field holds ([FormDataEntryValue]). *)
Inductive FormDataEntryValue : Type :=
| EntryString (s : string)
| EntryFile (filename : string).

(** A parsed form: its entries in order. *)
Definition FormData : Type := list (string * FormDataEntryValue).

(** [formData.get(name)]: the first entry of that name, [None] for [null]. *)
Fixpoint FormData_get (fd : FormData) (name : string) : option FormDataEntryValue :=
  match fd with
  | [] => None
  | (k, v) :: rest => if String.eqb k name then Some v else FormData_get rest name
  end.

(** [`${x}`] for the result of [formData.get]. *)
Definition template_of (x : option FormDataEntryValue) : string :=
  match x with
  | None => "null"
  | Some (EntryString s) => s
  | Some (EntryFile _) => "[object File]"
  end.

(** The value [JSON.stringify] sees for the result of [formData.get]: a [File]
    has no enumerable own property. *)
Definition json_of (x : option FormDataEntryValue) : json :=
  match x with
  | None => JNull
  | Some (EntryString s) => JStr s
  | Some (EntryFile _) => JObj []
  end.

(** Truthiness of the result of [formData.get]. *)
Definition truthy_entry (x : option FormDataEntryValue) : bool :=
  match x with
  | None => false
  | Some (EntryString s) => negb (String.eqb s "")
  | Some (EntryFile _) => true
  end.

(** Field lookup in an object; [None] is [undefined]. *)
Fixpoint assoc (fields : list (string * json)) (name : string) : option json :=
  match fields with
  | [] => None
  | (k, v) :: rest => if String.eqb k name then Some v else assoc rest name
  end.

(** Truthiness of a value read from parsed JSON ([None] is [undefined]). *)
Definition truthy (v : option json) : bool :=
  match v with
  | None => false
  | Some JNull => false
  | Some (JBool b) => b
  | Some (JNum n) => negb (Z.eqb n 0)
  | Some (JStr s) => negb (String.eqb s "")
  | Some (JArr _) => true
  | Some (JObj _) => true
  end.

(** The names of the fields of an object. *)
Definition field_names (v : json) : list string :=
  match v with
  | JObj fields => map fst fields
  | _ => []
  end.

(** [v.name] as a value, for a field the caller knows to be there. *)
Definition field (v : json) (name : string) : option json :=
  match v with
  | JObj fields => assoc fields name
  | _ => None
  end.

(** ** HTTP messages *)

(** A message body.  [BodyJSON v] is the text [JSON.stringify(v)]. *)
Inductive Body : Type :=
| BodyNull
| BodyText (text : string)
| BodyJSON (v : json).

Definition Headers : Type := list (string * string).

Record ResponseInit : Type := mkInit {
  init_status : option Z;
  init_headers : Headers
}.

Record Response : Type := mkResponse {
  status : Z;
  headers : Headers;
  body : Body
}.

Definition lower_ascii (c : ascii) : ascii :=
  let n := nat_of_ascii c in
  if (Nat.leb 65 n && Nat.leb n 90)%bool then ascii_of_nat (n + 32) else c.

Fixpoint lower (s : string) : string :=
  match s with
  | EmptyString => EmptyString
  | String c rest => String (lower_ascii c) (lower rest)
  end.

(** [headers.get(name)]: header names compare without regard to case. *)
Fixpoint Headers_get (h : Headers) (name : string) : option string :=
  match h with
  | [] => None
  | (k, v) :: rest =>
      if String.eqb (lower k) (lower name) then Some v else Headers_get rest name
  end.

(** [new Response(body, init)]: the status defaults to 200.  A body given as
    a string comes with the type [text/plain;charset=UTF-8], which the
    constructor appends to the headers when [init] names no content type. *)
Definition new_Response (b : Body) (init : ResponseInit) : Response :=
  {| status := default 200 (init_status init);
     headers :=
       match b, Headers_get (init_headers init) "Content-Type" with
       | (BodyText _ | BodyJSON _), None =>
           (init_headers init ++ [("content-type", "text/plain;charset=UTF-8")])%list
       | _, _ => init_headers init
       end;
     body := b |}.

Definition has_header (r : Response) (name : string) : bool :=
  match Headers_get (headers r) name with Some _ => true | None => false end.

(** The inbound request: its method, and what [request.formData()] settles to. *)
Inductive outcome (A : Type) : Type :=
| Ret (a : A)
| Throw (e : JsError).
Arguments Ret {A} a.
Arguments Throw {A} e.

Record Request : Type := mkRequest {
  method : string;
  formData : outcome FormData
}.

(** The second argument of the outbound [fetch]. *)
Record FetchInit : Type := mkFetchInit {
  fetch_method : string;
  fetch_body : Body;
  fetch_headers : Headers
}.

(** The response of an outbound [fetch], as far as the handlers look at it:
    what [response.json()] settles to. *)
Record FetchResponse : Type := mkFetchResponse {
  json_result : outcome json
}.

(** ** Platform, state and effects *)

(** What a handler does to the outside, in order.  The arguments of a console
    call are recorded as values: a text [JSON.stringify(v)] as [v] itself, as
    in [BodyJSON], and a caught [Error] as its message. *)
Inductive Event : Type :=
| EvFormData
| EvFetch (url : string) (init : FetchInit)
| EvKvPut (key : string) (value : json)
| EvConsole (level : string) (args : list json).

(** The surroundings of one invocation, none of it under the handler's
    control: the answer of the network to an outbound [fetch], the faults of
    the namespace, the identifier generator and the clock. *)
Record Platform : Type := mkPlatform {
  network : string -> FetchInit -> outcome FetchResponse;
  kv_fault : string -> json -> option JsError;
  uuid_source : nat -> string;
  now : string
}.

(** What persists: the namespace (a key holds the text [JSON.stringify(v)],
    kept as [v]), how many identifiers have been drawn, and the trace. *)
Record State : Type := mkState {
  kv : gmap string json;
  uuid_count : nat;
  trace : list Event
}.

Definition emit (ev : Event) (s : State) : State :=
  {| kv := kv s; uuid_count := uuid_count s; trace := trace s ++ [ev] |}.

(** The monad of handler code. *)
Definition M (A : Type) : Type := State -> outcome A * State.

#[global] Instance M_ret : MRet M := fun A a s => (Ret a, s).

#[global] Instance M_bind : MBind M := fun A B f m s =>
  match m s with
  | (Ret a, s') => f a s'
  | (Throw e, s') => (Throw e, s')
  end.

(** [try { m } catch (error) { h error }] *)
Definition try_catch {A : Type} (m : M A) (h : JsError -> M A) : M A := fun s =>
  match m s with
  | (Ret a, s') => (Ret a, s')
  | (Throw e, s') => h e s'
  end.

(** [await o] for an already determined outcome. *)
Definition settle {A : Type} (o : outcome A) : M A := fun s => (o, s).

(** [await request.formData()] *)
Definition request_formData (request : Request) : M FormData := fun s =>
  (formData request, emit EvFormData s).

(** [await fetch(url, init)], the outbound one. *)
Definition global_fetch (P : Platform) (url : string) (init : FetchInit) : M FetchResponse :=
  fun s => (network P url init, emit (EvFetch url init) s).

(** [await response.json()] *)
Definition Response_json (r : FetchResponse) : M json := settle (json_result r).

(** [v.name]: reading a property of [null] throws a [TypeError]; a primitive
    or an array has no such property. *)
Definition property (v : json) (name : string) : outcome (option json) :=
  match v with
  | JNull =>
      Throw (mkError "TypeError"
               ("Cannot read properties of null (reading '" ++ name ++ "')"))
  | JObj fields => Ret (assoc fields name)
  | _ => Ret None
  end.

Definition get_property (v : json) (name : string) : M (option json) :=
  settle (property v name).

(** [crypto.randomUUID()] *)
Definition crypto_randomUUID (P : Platform) : M string := fun s =>
  (Ret (uuid_source P (uuid_count s)),
   {| kv := kv s; uuid_count := S (uuid_count s); trace := trace s |}).

(** [new Date().toISOString()] *)
Definition Date_toISOString (P : Platform) : M string := mret (now P).

(** [await NAMESPACE.put(key, JSON.stringify(value))] *)
Definition kv_put (P : Platform) (key : string) (value : json) : M unit := fun s =>
  let s' := emit (EvKvPut key value) s in
  match kv_fault P key value with
  | Some e => (Throw e, s')
  | None =>
      (Ret tt, {| kv := <[key := value]> (kv s'); uuid_count := uuid_count s';
                  trace := trace s' |})
  end.

(** [console.log(...)], [console.error(...)] *)
Definition console (level : string) (args : list json) : M unit := fun s =>
  (Ret tt, emit (EvConsole level args) s).

(** The bindings handed to a module worker.  The store binding
    [WAITLIST_STORAGE] is the namespace of the state. *)
Record Env : Type := mkEnv { TURNSTILE_SECRET : string }.

Definition siteverify_url : string :=
  "https://challenges.cloudflare.com/turnstile/v0/siteverify".

Definition allow_headers_list : string :=
  "Content-Type, X-CX-Frontend-Signature, X-CX-Request-ID, X-CX-Timestamp, X-CX-Origin, X-Edge-Node, Cache-Control".

Definition cors_preflight_headers : Headers :=
  [("Access-Control-Allow-Origin", "*");
   ("Access-Control-Allow-Methods", "POST, OPTIONS");
   ("Access-Control-Allow-Headers", allow_headers_list)].

(** ** src/backup_worker.js *)
Module BackupWorker.

Definition fetch (P : Platform) (request : Request) (env : Env) : M Response :=
  if String.eqb (method request) "OPTIONS" then
    mret (new_Response BodyNull
            {| init_status := Some 204; init_headers := cors_preflight_headers |})
  else if negb (String.eqb (method request) "POST") then
    mret (new_Response (BodyText "Method Not Allowed")
            {| init_status := Some 405; init_headers := [] |})
  else
    formData ← request_formData request;
    let email := FormData_get formData "email" in
    let turnstileToken := FormData_get formData "cf-turnstile-response" in
    verifyResponse ← global_fetch P siteverify_url
      {| fetch_method := "POST";
         fetch_body := BodyText ("secret=" ++ TURNSTILE_SECRET env
                                 ++ "&response=" ++ template_of turnstileToken);
         fetch_headers :=
           [("content-type", "application/json");
            ("Access-Control-Allow-Origin", "*");
            ("Access-Control-Allow-Methods", "POST, OPTIONS");
            ("Access-Control-Allow-Headers", allow_headers_list)] |};
    verification ← Response_json verifyResponse;
    success ← get_property verification "success";
    if negb (truthy success) then
      mret (new_Response (BodyText "Bot detected")
              {| init_status := Some 403; init_headers := [] |})
    else
      id ← crypto_randomUUID P;
      timestamp ← Date_toISOString P;
      _ ← kv_put P ("lead:" ++ template_of email)
            (JObj [("email", json_of email);
                   ("timestamp", JStr timestamp);
                   ("id", JStr id)]);
      mret (new_Response
              (BodyJSON (JObj [("success", JBool true); ("id", JStr id)]))
              {| init_status := None;
                 init_headers := [("Content-Type", "application/json");
                                  ("Access-Control-Allow-Origin", "*")] |}).

End BackupWorker.

(** ** src/unnamed/part_000 *)
Module Part000.

Definition fetch (P : Platform) (request : Request) (env : Env) : M Response :=
  if String.eqb (method request) "OPTIONS" then
    mret (new_Response BodyNull
            {| init_status := Some 204; init_headers := cors_preflight_headers |})
  else if negb (String.eqb (method request) "POST") then
    mret (new_Response (BodyText "Method Not Allowed")
            {| init_status := Some 405;
               init_headers := [("Access-Control-Allow-Origin", "*")] |})
  else
    formData ← request_formData request;
    let email := FormData_get formData "email" in
    let turnstileToken := FormData_get formData "cf-turnstile-response" in
    _ ← console "log"
          [JStr "Turnstile token:";
           JStr (if truthy_entry turnstileToken then "present" else "MISSING")];
    verifyResponse ← global_fetch P siteverify_url
      {| fetch_method := "POST";
         fetch_body := BodyJSON (JObj [("secret", JStr (TURNSTILE_SECRET env));
                                       ("response", json_of turnstileToken)]);
         fetch_headers := [("content-type", "application/json")] |};
    verification ← Response_json verifyResponse;
    _ ← console "log" [JStr "Turnstile verification:"; verification];
    success ← get_property verification "success";
    if negb (truthy success) then
      _ ← console "error" [JStr "Turnstile verification failed:"; verification];
      mret (new_Response
              (BodyJSON (JObj [("success", JBool false);
                               ("error", JStr "Turnstile verification failed");
                               ("details", verification)]))
              {| init_status := Some 403;
                 init_headers := [("Content-Type", "application/json");
                                  ("Access-Control-Allow-Origin", "*")] |})
    else
      id ← crypto_randomUUID P;
      timestamp ← Date_toISOString P;
      _ ← kv_put P ("lead:" ++ template_of email)
            (JObj [("email", json_of email);
                   ("timestamp", JStr timestamp);
                   ("id", JStr id)]);
      _ ← console "log" [JStr "✓ Lead saved:"; JStr id];
      mret (new_Response
              (BodyJSON (JObj [("success", JBool true); ("id", JStr id)]))
              {| init_status := None;
                 init_headers := [("Content-Type", "application/json");
                                  ("Access-Control-Allow-Origin", "*")] |}).

End Part000.

(** ** The worker of src/config.example.js *)
Module ConfigExample.

Definition fetch (P : Platform) (request : Request) (env : Env) : M Response :=
  if String.eqb (method request) "OPTIONS" then
    mret (new_Response BodyNull
            {| init_status := Some 204; init_headers := cors_preflight_headers |})
  else if negb (String.eqb (method request) "POST") then
    mret (new_Response (BodyText "Method Not Allowed")
            {| init_status := Some 405;
               init_headers := [("Access-Control-Allow-Origin", "*")] |})
  else
    formData ← request_formData request;
    let email := FormData_get formData "email" in
    let company := FormData_get formData "company" in
    let turnstileToken := FormData_get formData "cf-turnstile-response" in
    _ ← console "log"
          [JStr "New lead:";
           JObj [("email", json_of email); ("company", json_of company)]];
    verifyResponse ← global_fetch P siteverify_url
      {| fetch_method := "POST";
         fetch_body := BodyJSON (JObj [("secret", JStr (TURNSTILE_SECRET env));
                                       ("response", json_of turnstileToken)]);
         fetch_headers := [("content-type", "application/json")] |};
    verification ← Response_json verifyResponse;
    success ← get_property verification "success";
    if negb (truthy success) then
      _ ← console "error" [JStr "Turnstile verification failed:"; verification];
      mret (new_Response
              (BodyJSON (JObj [("success", JBool false);
                               ("error", JStr "Turnstile verification failed")]))
              {| init_status := Some 403;
                 init_headers := [("Content-Type", "application/json");
                                  ("Access-Control-Allow-Origin", "*")] |})
    else
      id ← crypto_randomUUID P;
      timestamp ← Date_toISOString P;
      _ ← kv_put P id
            (JObj [("email", json_of email);
                   ("company", json_of company);
                   ("timestamp", JStr timestamp);
                   ("id", JStr id)]);
      _ ← console "log" [JStr "✓ Lead saved:"; JStr id];
      mret (new_Response
              (BodyJSON (JObj [("success", JBool true); ("id", JStr id)]))
              {| init_status := None;
                 init_headers := [("Content-Type", "application/json");
                                  ("Access-Control-Allow-Origin", "*")] |}).

End ConfigExample.

(** ** src/worker-cors-complete.js *)
Module WorkerCorsComplete.

Definition handleOptions : Response :=
  new_Response BodyNull
    {| init_status := Some 204;
       init_headers := (cors_preflight_headers
                        ++ [("Access-Control-Max-Age", "86400")])%list |}.

Definition jsonResponse (data : json) (status : Z) : Response :=
  new_Response (BodyJSON data)
    {| init_status := Some status;
       init_headers := [("Content-Type", "application/json");
                        ("Access-Control-Allow-Origin", "*");
                        ("Access-Control-Allow-Methods", "POST, OPTIONS");
                        ("Access-Control-Allow-Headers", allow_headers_list)] |}.

Definition verifyTurnstile (P : Platform) (token : option FormDataEntryValue) : M json :=
  response ← global_fetch P siteverify_url
    {| fetch_method := "POST";
       fetch_body := BodyJSON (JObj [("secret", JStr "YOUR_TURNSTILE_SECRET_KEY_HERE");
                                     ("response", json_of token)]);
       fetch_headers := [("Content-Type", "application/json")] |};
  Response_json response.

(** The write to the namespace is commented out in the source
    ("For now, just log it"): the record is only logged. *)
Definition handlePost (P : Platform) (request : Request) : M Response :=
  try_catch
    (formData ← request_formData request;
     let email := FormData_get formData "email" in
     let turnstileToken := FormData_get formData "cf-turnstile-response" in
     if negb (truthy_entry turnstileToken) then
       mret (jsonResponse (JObj [("success", JBool false);
                                 ("error", JStr "Missing Turnstile token")]) 400)
     else
       turnstileVerify ← verifyTurnstile P turnstileToken;
       success ← get_property turnstileVerify "success";
       if negb (truthy success) then
         mret (jsonResponse (JObj [("success", JBool false);
                                   ("error", JStr "Invalid Turnstile token")]) 403)
       else
         leadId ← crypto_randomUUID P;
         timestamp ← Date_toISOString P;
         let leadData := JObj [("email", json_of email);
                               ("timestamp", JStr timestamp);
                               ("id", JStr leadId)] in
         _ ← console "log" [JStr "Lead stored:"; leadData];
         mret (jsonResponse (JObj [("success", JBool true); ("id", JStr leadId)]) 200))
    (fun error =>
       _ ← console "error" [JStr "Error processing request:"; JStr (err_message error)];
       mret (jsonResponse (JObj [("success", JBool false);
                                 ("error", JStr "Internal server error")]) 500)).

Definition handleRequest (P : Platform) (request : Request) : M Response :=
  if String.eqb (method request) "OPTIONS" then mret handleOptions
  else if String.eqb (method request) "POST" then handlePost P request
  else mret (new_Response (BodyText "Method not allowed")
               {| init_status := Some 405; init_headers := [] |}).

End WorkerCorsComplete.

(** ** The drafts side by side *)

Inductive Draft : Type :=
| backup_worker
| part_000
| config_example
| worker_cors_complete.

(** The entry point of each draft.  The service-worker draft takes no
    bindings. *)
Definition handler (d : Draft) (P : Platform) (request : Request) (env : Env) : M Response :=
  match d with
  | backup_worker => BackupWorker.fetch P request env
  | part_000 => Part000.fetch P request env
  | config_example => ConfigExample.fetch P request env
  | worker_cors_complete => WorkerCorsComplete.handleRequest P request
  end.

(** The drafts that write to the namespace bound as [env.WAITLIST_STORAGE]. *)
Definition has_store (d : Draft) : bool :=
  match d with
  | worker_cors_complete => false
  | _ => true
  end.

(** The drafts whose storage key is [lead:<email>]. *)
Definition keyed_by_email (d : Draft) : bool :=
  match d with
  | backup_worker | part_000 => true
  | _ => false
  end.

(** ** Reading a trace *)

Definition kv_puts (evs : list Event) : list (string * json) :=
  omap (fun ev => match ev with EvKvPut k v => Some (k, v) | _ => None end) evs.

Definition fetch_calls (evs : list Event) : list (string * FetchInit) :=
  omap (fun ev => match ev with EvFetch u i => Some (u, i) | _ => None end) evs.

Definition is_console (ev : Event) : bool :=
  match ev with EvConsole _ _ => true | _ => false end.

(** The events other than console output. *)
Definition io_events (evs : list Event) : list Event :=
  filter (fun ev => is_console ev = false) evs.

(** The verdict the network gives on one outbound call: the call returns,
    its body parses as JSON, and reading [success] off that JSON gives a truthy
    ([Some true]) or falsy ([Some false]) value; [None] when one of the three
    steps throws. *)
Definition call_verdict (P : Platform) (url : string) (init : FetchInit) : option bool :=
  match network P url init with
  | Ret r =>
      match json_result r with
      | Ret v =>
          match property v "success" with
          | Ret x => Some (truthy x)
          | Throw _ => None
          end
      | Throw _ => None
      end
  | Throw _ => None
  end.

(** Some verification call of the trace reported success. *)
Definition reported_success (P : Platform) (evs : list Event) : bool :=
  existsb (fun '(u, i) => bool_decide (call_verdict P u i = Some true)) (fetch_calls evs).

(** Some verification call of the trace reported failure. *)
Definition reported_failure (P : Platform) (evs : list Event) : bool :=
  existsb (fun '(u, i) => bool_decide (call_verdict P u i = Some false)) (fetch_calls evs).

(** The state a fresh deployment starts from. *)
Definition initial : State := {| kv := ∅; uuid_count := 0; trace := [] |}.


(** ** Vocabulary of the statements *)

(** The second argument of the verification call each draft makes for a token.
    The results on the effects of a POST show that this is the call found in
    the trace. *)
Definition verification_call (d : Draft) (env : Env)
    (token : option FormDataEntryValue) : FetchInit :=
  match d with
  | backup_worker =>
      {| fetch_method := "POST";
         fetch_body := BodyText ("secret=" ++ TURNSTILE_SECRET env
                                 ++ "&response=" ++ template_of token);
         fetch_headers :=
           [("content-type", "application/json");
            ("Access-Control-Allow-Origin", "*");
            ("Access-Control-Allow-Methods", "POST, OPTIONS");
            ("Access-Control-Allow-Headers", allow_headers_list)] |}
  | part_000 | config_example =>
      {| fetch_method := "POST";
         fetch_body := BodyJSON (JObj [("secret", JStr (TURNSTILE_SECRET env));
                                       ("response", json_of token)]);
         fetch_headers := [("content-type", "application/json")] |}
  | worker_cors_complete =>
      {| fetch_method := "POST";
         fetch_body := BodyJSON (JObj [("secret", JStr "YOUR_TURNSTILE_SECRET_KEY_HERE");
                                       ("response", json_of token)]);
         fetch_headers := [("Content-Type", "application/json")] |}
  end.

(** The token of a form, and the verdict of the service on it. *)
Definition token_of (fd : FormData) : option FormDataEntryValue :=
  FormData_get fd "cf-turnstile-response".

Definition verdict (d : Draft) (P : Platform) (env : Env) (fd : FormData) : option bool :=
  call_verdict P siteverify_url (verification_call d env (token_of fd)).

(** The body [{success: true, id}] of an acknowledgement. *)
Definition ack_body (id : string) : Body :=
  BodyJSON (JObj [("success", JBool true); ("id", JStr id)]).



(** The rejection the specification asks for: status 403, a body
    [{success: false, error: msg}] and the cross-origin header. *)
Definition rejects_as_specified (o : outcome Response) : Prop :=
  exists r msg,
    o = Ret r /\ status r = 403 /\
    body r = BodyJSON (JObj [("success", JBool false); ("error", JStr msg)]) /\
    has_header r "Access-Control-Allow-Origin" = true.

(** ** Sample inputs *)

Definition alice_form : FormData :=
  [("email", EntryString "alice@example.com");
   ("company", EntryString "Acme");
   ("cf-turnstile-response", EntryString "token-1")].

Definition alice_form_no_company : FormData :=
  [("email", EntryString "alice@example.com");
   ("cf-turnstile-response", EntryString "token-1")].

Definition post_alice : Request := {| method := "POST"; formData := Ret alice_form |}.

Definition post_alice_no_company : Request :=
  {| method := "POST"; formData := Ret alice_form_no_company |}.

(** A POST whose body is not a form: [request.formData()] rejects. *)
Definition post_unparsable : Request :=
  {| method := "POST";
     formData := Throw (mkError "TypeError" "Unrecognized Content-Type header value") |}.

Definition get_request : Request :=
  {| method := "GET"; formData := Throw (mkError "TypeError" "Request has no body") |}.

Definition options_request : Request :=
  {| method := "OPTIONS"; formData := Throw (mkError "TypeError" "Request has no body") |}.

Definition env0 : Env := {| TURNSTILE_SECRET := "0x4AAAAAAA-secret" |}.

Definition sample_uuid (n : nat) : string := "00000000-0000-4000-8000-" ++ pretty n.

Definition answer (v : json) : string -> FetchInit -> outcome FetchResponse :=
  fun _ _ => Ret {| json_result := Ret v |}.

(** The service accepts, the namespace works. *)
Definition accepting : Platform :=
  {| network := answer (JObj [("success", JBool true)]);
     kv_fault := fun _ _ => None;
     uuid_source := sample_uuid;
     now := "2025-01-01T00:00:00.000Z" |}.

(** The service rejects. *)
Definition rejecting : Platform :=
  {| network := answer (JObj [("success", JBool false);
                              ("error-codes", JArr [JStr "invalid-input-response"])]);
     kv_fault := fun _ _ => None;
     uuid_source := sample_uuid;
     now := "2025-01-01T00:00:00.000Z" |}.

(** The service cannot be reached. *)
Definition unreachable : Platform :=
  {| network := fun _ _ => Throw (mkError "TypeError" "fetch failed");
     kv_fault := fun _ _ => None;
     uuid_source := sample_uuid;
     now := "2025-01-01T00:00:00.000Z" |}.

(** The service accepts, the namespace refuses the write. *)
Definition store_down : Platform :=
  {| network := answer (JObj [("success", JBool true)]);
     kv_fault := fun _ _ => Some (mkError "Error" "KV PUT failed: 429 Too Many Requests");
     uuid_source := sample_uuid;
     now := "2025-01-01T00:00:00.000Z" |}.

(** What one run adds to the trace, and where it ends, for the samples. *)
Definition sample_run (d : Draft) (P : Platform) (request : Request) :
    outcome Response * State :=
  handler d P request env0 initial.

(** The effects the specification allows a POST: one verification call and
    at most one write. *)
Definition one_call_at_most_one_write (evs : list Event) : Prop :=
  length (fetch_calls evs) = 1%nat /\ (length (kv_puts evs) <= 1)%nat.


(** A namespace holds a record of the form: some key is bound to a value
    whose [email] is the one submitted. *)
Definition holds_record_of (fd : FormData) (namespace : gmap string json) : Prop :=
  exists key record,
    namespace !! key = Some record /\
    field record "email" = Some (json_of (FormData_get fd "email")).

(** The invariant of the specification, read on the namespace a run leaves
    behind: a record of the form is there if and only if the service
    accepted the token. *)
Definition persisted_iff_verified (d : Draft) (P : Platform) (env : Env)
    (fd : FormData) (s' : State) : Prop :=
  holds_record_of fd (kv s') <-> verdict d P env fd = Some true.

(** ** src/worker-fix-guide.js *)
Module WorkerFixGuide.

Definition handleRequest (P : Platform) (request : Request) : M Response :=
  if String.eqb (method request) "OPTIONS" then
    mret (new_Response BodyNull
            {| init_status := Some 204;
               init_headers := (cors_preflight_headers
                                ++ [("Access-Control-Max-Age", "86400")])%list |})
  else if String.eqb (method request) "POST" then
    try_catch
      (formData ← request_formData request;
       let email := FormData_get formData "email" in
       let turnstileToken := FormData_get formData "cf-turnstile-response" in
       leadId ← crypto_randomUUID P;
       mret (new_Response
               (BodyJSON (JObj [("success", JBool true); ("id", JStr leadId)]))
               {| init_status := Some 200;
                  init_headers :=
                    [("Content-Type", "application/json");
                     ("Access-Control-Allow-Origin", "*");
                     ("Access-Control-Allow-Methods", "POST, OPTIONS");
                     ("Access-Control-Allow-Headers", allow_headers_list)] |}))
      (fun error =>
         mret (new_Response
                 (BodyJSON (JObj [("success", JBool false);
                                  ("error", JStr (err_message error))]))
                 {| init_status := Some 500;
                    init_headers := [("Content-Type", "application/json");
                                     ("Access-Control-Allow-Origin", "*")] |}))
  else
    mret (new_Response (BodyText "Method not allowed")
            {| init_status := Some 405; init_headers := [] |}).

End WorkerFixGuide.

(** ** The worker of src/debug-worker.js *)
Module DebugWorker.

Definition handleRequest (P : Platform) (request : Request) : M Response :=
  if String.eqb (method request) "OPTIONS" then
    _ ← console "log" [JStr "Received OPTIONS request - returning CORS headers"];
    mret (new_Response BodyNull
            {| init_status := Some 204;
               init_headers := (cors_preflight_headers
                                ++ [("Access-Control-Max-Age", "86400")])%list |})
  else if String.eqb (method request) "POST" then
    _ ← console "log" [JStr "Received POST request"];
    try_catch
      (formData ← request_formData request;
       let email := FormData_get formData "email" in
       let turnstileToken := FormData_get formData "cf-turnstile-response" in
       _ ← console "log" [JStr "Email hash:"; json_of email];
       _ ← console "log"
             [JStr "Turnstile token:";
              JStr (if truthy_entry turnstileToken then "present" else "missing")];
       leadId ← crypto_randomUUID P;
       _ ← console "log" [JStr "Generated lead ID:"; JStr leadId];
       timestamp ← Date_toISOString P;
       let leadData := JObj [("email", json_of email);
                             ("timestamp", JStr timestamp);
                             ("id", JStr leadId)] in
       _ ← console "log" [JStr "Would store in KV:"; leadData];
       mret (new_Response
               (BodyJSON (JObj [("success", JBool true); ("id", JStr leadId)]))
               {| init_status := Some 200;
                  init_headers :=
                    [("Content-Type", "application/json");
                     ("Access-Control-Allow-Origin", "*");
                     ("Access-Control-Allow-Methods", "POST, OPTIONS");
                     ("Access-Control-Allow-Headers", allow_headers_list)] |}))
      (fun error =>
         _ ← console "error" [JStr "Error in POST handler:"; JStr (err_message error)];
         mret (new_Response
                 (BodyJSON (JObj [("success", JBool false);
                                  ("error", JStr (err_message error))]))
                 {| init_status := Some 500;
                    init_headers := [("Content-Type", "application/json");
                                     ("Access-Control-Allow-Origin", "*")] |}))
  else
    _ ← console "log" [JStr "Unhandled method:"; JStr (method request)];
    mret (new_Response (BodyText "Method not allowed")
            {| init_status := Some 405; init_headers := [] |}).

End DebugWorker.

(** The two drafts that answer a POST without asking the verification
    service. *)
Inductive GuideDraft : Type :=
| worker_fix_guide
| debug_worker.

Definition guide_handler (g : GuideDraft) (P : Platform) (request : Request) : M Response :=
  match g with
  | worker_fix_guide => WorkerFixGuide.handleRequest P request
  | debug_worker => DebugWorker.handleRequest P request
  end.



(** A form without an [email] field. *)
Definition anonymous_form : FormData :=
  [("company", EntryString "Acme"); ("cf-turnstile-response", EntryString "token-2")].

Definition post_anonymous : Request :=
  {| method := "POST"; formData := Ret anonymous_form |}.

(** A form without a token. *)
Definition tokenless_form : FormData := [("email", EntryString "bob@example.com")].

Definition post_tokenless : Request :=
  {| method := "POST"; formData := Ret tokenless_form |}.

Definition env1 : Env := {| TURNSTILE_SECRET := "0x4AAAAAAA-rotated" |}.

(** ** src/script.js: strings and values of the page

    A JavaScript string is its sequence of UTF-16 code units; [length],
    [trim], [substring], [replace] and the regular expressions without the
    [u] flag all work on code units. *)
Definition jsstring : Type := list N.

(** A string literal of the source (ASCII). *)
Definition str (s : string) : jsstring := map N_of_ascii (list_ascii_of_string s).

(** What the functions of the page are handed: the result of [formData.get]
    on a form of text fields ([null] or a string) or [window.turnstileToken]
    ([undefined] or a string). *)
Inductive jsval : Type :=
| JsUndefined
| JsNull
| JsString (s : jsstring).

(** One line of console output. *)
Inductive LogArg : Type :=
| LogStr (s : jsstring)
| LogNum (n : Z)
| LogBool (b : bool)
| LogVal (v : jsval)
| LogList (items : list jsstring).

Record LogLine : Type := mkLog { log_level : string; log_args : list LogArg }.

(** Code that returns a value and writes to the console. *)
Definition Logged (A : Type) : Type := (A * list LogLine)%type.

#[global] Instance Logged_ret : MRet Logged := fun A a => (a, []).

#[global] Instance Logged_bind : MBind Logged := fun A B f m =>
  let '(a, l1) := m in let '(b, l2) := f a in (b, (l1 ++ l2)%list).

Definition log (level : string) (args : list LogArg) : Logged unit :=
  (tt, [mkLog level args]).

(** White space and line terminators, as [trim] sees them. *)
Definition is_whitespace (c : N) : bool :=
  (N.eqb c 9 || N.eqb c 10 || N.eqb c 11 || N.eqb c 12 || N.eqb c 13
   || N.eqb c 32 || N.eqb c 160 || N.eqb c 5760
   || (N.leb 8192 c && N.leb c 8202)
   || N.eqb c 8232 || N.eqb c 8233 || N.eqb c 8239 || N.eqb c 8287
   || N.eqb c 12288 || N.eqb c 65279)%bool.

Fixpoint trimStart (s : jsstring) : jsstring :=
  match s with
  | [] => []
  | c :: rest => if is_whitespace c then trimStart rest else s
  end.

Definition trimEnd (s : jsstring) : jsstring := rev (trimStart (rev s)).

(** [s.trim()] *)
Definition trim (s : jsstring) : jsstring := trimEnd (trimStart s).

(** [s.replace(/c/g, rep)] for a single code unit [c]. *)
Definition replace_all (c : N) (rep : jsstring) (s : jsstring) : jsstring :=
  flat_map (fun x => if N.eqb x c then rep else [x]) s.

(** The class [[\x00-\x08\x0B\x0C\x0E-\x1F\x7F]]. *)
Definition is_control (c : N) : bool :=
  (N.leb c 8 || N.eqb c 11 || N.eqb c 12 || (N.leb 14 c && N.leb c 31)
   || N.eqb c 127)%bool.

(** [s.startsWith(p)] *)
Fixpoint startsWith (s p : jsstring) : bool :=
  match p, s with
  | [], _ => true
  | _ :: _, [] => false
  | a :: p', b :: s' => (N.eqb a b && startsWith s' p')%bool
  end.

(** [s.endsWith(p)] *)
Definition endsWith (s p : jsstring) : bool := startsWith (rev s) (rev p).

(** [s.split(c)] for a single code unit [c]. *)
Fixpoint split (c : N) (s : jsstring) : list jsstring :=
  match s with
  | [] => [[]]
  | x :: rest =>
      if N.eqb x c then [] :: split c rest
      else match split c rest with
           | [] => [[x]]
           | part :: parts => (x :: part) :: parts
           end
  end.

(** [s.toLowerCase()] on the letters A to Z.  It is applied only to what
    follows the [@] of a string that passed [emailRegex], which is ASCII
    ([emailRegex_ascii]). *)
Definition toLowerCase (s : jsstring) : jsstring :=
  map (fun c => if (N.leb 65 c && N.leb c 90)%bool then (c + 32)%N else c) s.

(** ** Regular expressions *)

(** The regular expressions of the source, over code units.  [test] on an
    expression anchored with [^] and [$] asks whether the whole string is in
    its language, which derivatives decide. *)
Inductive regex : Type :=
| Void
| Eps
| Class (p : N -> bool)
| Cat (r1 r2 : regex)
| Alt (r1 r2 : regex)
| Star (r : regex).

Definition Plus (r : regex) : regex := Cat r (Star r).
Definition Opt (r : regex) : regex := Alt Eps r.

(** [r{0,n}] *)
Fixpoint UpTo (n : nat) (r : regex) : regex :=
  match n with
  | O => Eps
  | S n' => Opt (Cat r (UpTo n' r))
  end.

Fixpoint nullable (r : regex) : bool :=
  match r with
  | Void => false
  | Eps => true
  | Class _ => false
  | Cat r1 r2 => (nullable r1 && nullable r2)%bool
  | Alt r1 r2 => (nullable r1 || nullable r2)%bool
  | Star _ => true
  end.

Definition cat (r1 r2 : regex) : regex :=
  match r1, r2 with
  | Void, _ => Void
  | _, Void => Void
  | Eps, _ => r2
  | _, Eps => r1
  | _, _ => Cat r1 r2
  end.

Definition alt (r1 r2 : regex) : regex :=
  match r1, r2 with
  | Void, _ => r2
  | _, Void => r1
  | _, _ => Alt r1 r2
  end.

Fixpoint deriv (c : N) (r : regex) : regex :=
  match r with
  | Void => Void
  | Eps => Void
  | Class p => if p c then Eps else Void
  | Cat r1 r2 =>
      if nullable r1 then alt (cat (deriv c r1) r2) (deriv c r2)
      else cat (deriv c r1) r2
  | Alt r1 r2 => alt (deriv c r1) (deriv c r2)
  | Star r1 => cat (deriv c r1) (Star r1)
  end.

(** [/^r$/.test(s)] *)
Fixpoint test (r : regex) (s : jsstring) : bool :=
  match s with
  | [] => nullable r
  | c :: rest => test (deriv c r) rest
  end.

(** The language of an expression. *)
Inductive lang : regex -> jsstring -> Prop :=
| lang_eps : lang Eps []
| lang_class p c : p c = true -> lang (Class p) [c]
| lang_cat r1 r2 s1 s2 : lang r1 s1 -> lang r2 s2 -> lang (Cat r1 r2) (s1 ++ s2)%list
| lang_alt_l r1 r2 s : lang r1 s -> lang (Alt r1 r2) s
| lang_alt_r r1 r2 s : lang r2 s -> lang (Alt r1 r2) s
| lang_star_nil r : lang (Star r) []
| lang_star_cons r s1 s2 : lang r s1 -> lang (Star r) s2 -> lang (Star r) (s1 ++ s2)%list.

Definition is_alnum (c : N) : bool :=
  ((N.leb 97 c && N.leb c 122) || (N.leb 65 c && N.leb c 90)
   || (N.leb 48 c && N.leb c 57))%bool.

(** [[a-zA-Z0-9-]] *)
Definition is_alnum_dash (c : N) : bool := (is_alnum c || N.eqb c 45)%bool.

(** [[a-zA-Z0-9.!#$%&'*+/=?^_`{|}~-]] *)
Definition is_local (c : N) : bool :=
  (is_alnum c || existsb (N.eqb c) (str ".!#$%&'*+/=?^_`{|}~-"))%bool.

(** [[a-zA-Z0-9](?:[a-zA-Z0-9-]{0,61}[a-zA-Z0-9])?] *)
Definition label : regex :=
  Cat (Class is_alnum) (Opt (Cat (UpTo 61 (Class is_alnum_dash)) (Class is_alnum))).

(** The [emailRegex] of [validateEmail]. *)
Definition emailRegex : regex :=
  Cat (Plus (Class is_local))
      (Cat (Class (N.eqb 64))
           (Cat label (Plus (Cat (Class (N.eqb 46)) label)))).

(** ** src/script.js: configuration and validation *)
Module CONFIG.

Definition requestTimeout : Z := 5000.
Definition frontendSignature : string := "CX-FE-2025-V1".
Definition debounceDelay : Z := 1000.
Definition maxEmailLength : nat := 254.
Definition maxStringLength : nat := 100.
Definition fallbackEndpoint : string := "https://formspree.io/f/xqakplkw".

End CONFIG.

(** The validation result [{valid, errors, silent}]. *)
Record Validation : Type := mkValidation {
  valid : bool;
  errors : list jsstring;
  silent : bool
}.

(** The form of the page: text fields. *)
Definition PageForm : Type := list (string * jsstring).

(** [formData.get(name)] *)
Fixpoint PageForm_get (fd : PageForm) (name : string) : jsval :=
  match fd with
  | [] => JsNull
  | (k, v) :: rest => if String.eqb k name then JsString v else PageForm_get rest name
  end.

(** Truthiness: [undefined], [null] and the empty string are falsy. *)
Definition truthy_val (v : jsval) : bool :=
  match v with
  | JsString (_ :: _) => true
  | _ => false
  end.

Module Security.

(** [domain?.endsWith(suffix)], falsy when the domain is [undefined]. *)
Definition domain_endsWith (domain : option jsstring) (suffix : jsstring) : bool :=
  match domain with
  | Some d => endsWith d suffix
  | None => false
  end.

Definition validateEmail (email : jsval) : bool :=
  match email with
  | JsString [] | JsNull | JsUndefined => false
  | JsString email =>
      if (CONFIG.maxEmailLength <? length email)%nat then false
      else if negb (test emailRegex email) then false
      else
        let domain := option_map toLowerCase (nth_error (split 64 email) 1) in
        let blockedDomains :=
          [str "tempmail.com"; str "throwaway.com"; str "guerrillamail.com"] in
        if existsb (fun blocked => domain_endsWith domain blocked) blockedDomains
        then false
        else
          let whitelistedDomains :=
            [str "lb-labs.com"; str "bdtec.ai"; str "gmail.com"; str "outlook.com"] in
          if existsb (fun allowed => domain_endsWith domain allowed) whitelistedDomains
          then true
          else
            let genericDomains :=
              [str "gmail.com"; str "yahoo.com"; str "hotmail.com"; str "outlook.com";
               str "aol.com"] in
            (* the body of this [if] is commented out in the source *)
            if existsb (fun generic => domain_endsWith domain generic) genericDomains
            then true
            else true
  end.

(** [maxLength] defaults to [CONFIG.maxStringLength] in the source; every
    call passes it. *)
Definition sanitizeString (input : jsval) (maxLength : nat) : jsstring :=
  match input with
  | JsString [] | JsNull | JsUndefined => []
  | JsString input =>
      let sanitized := trim input in
      let sanitized := filter (fun c => is_control c = false) sanitized in
      let sanitized :=
        replace_all 39 (str "&#x27;")
          (replace_all 34 (str "&quot;")
             (replace_all 62 (str "&gt;")
                (replace_all 60 (str "&lt;")
                   (replace_all 38 (str "&amp;") sanitized)))) in
      if (maxLength <? length sanitized)%nat then take maxLength sanitized
      else sanitized
  end.

(** The truthiness of what [isBot] returns. *)
Definition isBot (honeypotValue : jsval) : bool :=
  match honeypotValue with
  | JsString [] | JsNull | JsUndefined => false
  | JsString s => (0 <? length (trim s))%nat
  end.

Definition validateTurnstileToken (token : jsval) : Logged bool :=
  match token with
  | JsString [] | JsNull | JsUndefined => mret false
  | JsString token =>
      let isValidLength := ((100 <=? length token)%nat && (length token <=? 2000)%nat)%bool in
      _ ← log "log" [LogStr (str "Token length check:"); LogNum (Z.of_nat (length token));
                     LogStr (str "Valid:"); LogBool isValidLength];
      let hasValidPrefix := startsWith token (str "0.") in
      _ ← log "log" [LogStr (str "Token prefix check:"); LogBool hasValidPrefix];
      mret (isValidLength && hasValidPrefix)%bool
  end.

(** [token?.length] *)
Definition optional_length (token : jsval) : LogArg :=
  match token with
  | JsString s => LogNum (Z.of_nat (length s))
  | _ => LogVal JsUndefined
  end.

(** [window.turnstileToken] is the second argument. *)
Definition validateForm (formData : PageForm) (turnstileToken : jsval) : Logged Validation :=
  if isBot (PageForm_get formData "website-url") then
    _ ← log "warn" [LogStr (str "Bot detected via honeypot field")];
    mret {| valid := false; errors := [str "Bot detected"]; silent := true |}
  else
    let errors : list jsstring := [] in
    let email := PageForm_get formData "email" in
    _ ← log "debug" [LogStr (str "Validating email:"); LogVal email];
    errors ← (if negb (validateEmail email) then
                _ ← log "error" [LogStr (str "Email validation failed for:"); LogVal email];
                mret (errors ++ [str "Invalid email address"])%list
              else mret errors);
    let company := PageForm_get formData "company" in
    _ ← log "debug" [LogStr (str "Validating company:"); LogVal company];
    let errors :=
      if match company with
         | JsString ((_ :: _) as c) => (length (trim c) <? 2)%nat
         | _ => true
         end
      then (errors ++ [str "Company name is required"])%list
      else errors in
    _ ← log "debug"
          [LogStr (str "Validating Turnstile token:");
           LogStr (match turnstileToken with
                   | JsString ((_ :: _) as t) =>
                       (str "Present (" ++ str (pretty (length t)) ++ str " chars)")%list
                   | _ => str "MISSING"
                   end)];
    check ← validateTurnstileToken turnstileToken;
    _ ← log "debug" [LogStr (str "Token validation check:"); LogBool check];
    ok ← validateTurnstileToken turnstileToken;
    errors ← (if negb ok then
                _ ← log "error" [LogStr (str "Turnstile token validation failed")];
                _ ← log "error" [LogStr (str "Token value:"); LogVal turnstileToken];
                _ ← log "error" [LogStr (str "Token length:"); optional_length turnstileToken];
                mret (errors ++ [str "Please complete the security verification"])%list
              else mret errors);
    _ ← log "debug"
          [LogStr (str "Validation result:");
           LogStr (if (length errors =? 0)%nat then str "VALID" else str "INVALID");
           LogList errors];
    mret {| valid := (length errors =? 0)%nat;
            errors := errors;
            silent := match errors with
                      | [e] => bool_decide (e = str "Bot detected")
                      | _ => false
                      end |}.

End Security.

(** ** src/script.js: debounce *)

(** The closure of [debounce(func, delay)]: the pending timer, with the time
    it is due and the arguments it will pass, and [lastCall].  [clearTimeout]
    followed by a possible [setTimeout] leaves at most one timer pending. *)
Record Debounced (A : Type) : Type := mkDebounced {
  pending : option (Z * A);
  lastCall : Z
}.
Arguments mkDebounced {A} pending lastCall.
Arguments pending {A} d.
Arguments lastCall {A} d.

Definition debounce {A : Type} : Debounced A := {| pending := None; lastCall := 0 |}.

(** [executedFunction(...args)], entered when [Date.now()] is [now]; the
    second component lists the calls of [func] it makes. *)
Definition executedFunction {A : Type} (delay : Z) (now : Z) (args : A)
    (st : Debounced A) : Debounced A * list (Z * A) :=
  let timeSinceLastCall := (now - lastCall st)%Z in
  if (delay <=? timeSinceLastCall)%Z then
    ({| pending := None; lastCall := now |}, [(now, args)])
  else
    ({| pending := Some ((now + (delay - timeSinceLastCall))%Z, args);
        lastCall := lastCall st |}, []).

(** The callback of the pending timer, run when [Date.now()] is [now]. *)
Definition timer_callback {A : Type} (now : Z) (st : Debounced A) :
    Debounced A * list (Z * A) :=
  match pending st with
  | Some (_, args) => ({| pending := None; lastCall := now |}, [(now, args)])
  | None => (st, [])
  end.

(** What the event loop does to the closure. *)
Inductive Tick (A : Type) : Type :=
| Invoke (now : Z) (args : A)
| TimerFires (now : Z).
Arguments Invoke {A} now args.
Arguments TimerFires {A} now.

Definition tick_time {A : Type} (t : Tick A) : Z :=
  match t with Invoke now _ => now | TimerFires now => now end.

Definition tick_step {A : Type} (delay : Z) (t : Tick A) (st : Debounced A) :
    Debounced A * list (Z * A) :=
  match t with
  | Invoke now args => executedFunction delay now args st
  | TimerFires now => timer_callback now st
  end.

(** The calls of [func] made along a schedule, oldest first. *)
Fixpoint run_ticks {A : Type} (delay : Z) (ticks : list (Tick A)) (st : Debounced A) :
    Debounced A * list (Z * A) :=
  match ticks with
  | [] => (st, [])
  | t :: rest =>
      let '(st1, calls1) := tick_step delay t st in
      let '(st2, calls2) := run_ticks delay rest st1 in
      (st2, (calls1 ++ calls2)%list)
  end.

(** A schedule the platform can produce from time [t0] on: the clock does not
    go back, and a timer fires only when one is pending and due. *)
Fixpoint feasible {A : Type} (delay : Z) (t0 : Z) (ticks : list (Tick A))
    (st : Debounced A) : Prop :=
  match ticks with
  | [] => True
  | t :: rest =>
      (t0 <= tick_time t)%Z /\
      match t with
      | Invoke _ _ => True
      | TimerFires now => exists due args, pending st = Some (due, args) /\ (due <= now)%Z
      end /\
      feasible delay (tick_time t) rest (tick_step delay t st).1
  end.

(** Consecutive calls at least [delay] apart. *)
Fixpoint spaced {A : Type} (delay : Z) (calls : list (Z * A)) : Prop :=
  match calls with
  | [] => True
  | (t1, _) :: rest =>
      match rest with
      | [] => True
      | (t2, _) :: _ => (delay <= t2 - t1)%Z
      end /\ spaced delay rest
  end.

(** The arguments of the last [Invoke] of a schedule. *)
Definition last_invoked {A : Type} (ticks : list (Tick A)) : option A :=
  last (omap (fun t => match t with Invoke _ a => Some a | TimerFires _ => None end) ticks).

(** ** src/script.js: racePatternSubmit *)

(** The payload, as far as [racePatternSubmit] reads it. *)
Record Payload : Type := mkPayload {
  p_referenceId : jsstring;
  p_company : jsstring;
  p_email : jsstring;
  p_gpuScale : jsstring;
  p_turnstileToken : jsstring
}.

(** What the page supplies to one submission: the result of
    [generateReferenceId()], of [Date.now().toString()], and
    [window.location.origin]. *)
Record Page : Type := mkPage {
  requestId : jsstring;
  timestamp_now : jsstring;
  origin : jsstring
}.

(** One [fetch(endpoint, {method: 'POST', mode: 'cors', headers, body,
    credentials: 'omit'})]; the body is a [URLSearchParams]. *)
Record Sent : Type := mkSent {
  sent_to : string;
  sent_headers : list (string * jsstring);
  sent_body : list (string * jsstring)
}.

(** What comes back: [fetch] rejects (network error, abort after the
    timeout), or a response with [ok], [status] and what [text()] settles to. *)
Inductive Answer : Type :=
| NoAnswer (e : JsError)
| Answered (ok : bool) (status : Z) (text : outcome jsstring).

(** The [data] of a successful request: [{ok: true}], the parsed JSON, or
    [{ok: true, raw}]. *)
Inductive Data : Type :=
| DataOk
| DataParsed (v : json)
| DataRaw (raw : jsstring).

(** The object one request resolves to. *)
Inductive Attempt : Type :=
| Succeeded (endpoint : nat) (endpointType : string) (data : Data) (request_id : jsstring)
| Failed (endpoint : nat) (error : string) (request_id : jsstring).

Definition attempt_success (a : Attempt) : bool :=
  match a with Succeeded _ _ _ _ => true | Failed _ _ _ => false end.

Definition securityHeaders (page : Page) : list (string * jsstring) :=
  [("X-CX-Frontend-Signature", str CONFIG.frontendSignature);
   ("X-CX-Request-ID", requestId page);
   ("X-CX-Timestamp", timestamp_now page);
   ("X-CX-Origin", origin page)].

(** The request the callback of [allEndpoints.map] sends for one endpoint. *)
Definition request_for (page : Page) (edgeEndpoints : list string) (payload : Payload)
    (endpoint : string) (index : nat) : Sent :=
  let isFallback := (index =? length edgeEndpoints)%nat in
  if isFallback then
    {| sent_to := endpoint;
       sent_headers := [("Content-Type", str "application/x-www-form-urlencoded")];
       sent_body := [("company", p_company payload);
                     ("email", p_email payload);
                     ("gpu_scale", p_gpuScale payload);
                     ("reference_id", p_referenceId payload);
                     ("_subject", (str "New Lead: " ++ p_company payload)%list)] |}
  else
    {| sent_to := endpoint;
       sent_headers :=
         ([("Content-Type", str "application/x-www-form-urlencoded")]
          ++ securityHeaders page
          ++ [("X-Edge-Node", str (pretty index));
              ("Cache-Control", str "no-cache, no-store, must-revalidate")])%list;
       sent_body := [("email", p_email payload);
                     ("company", p_company payload);
                     ("gpuScale", p_gpuScale payload);
                     ("cf-turnstile-response", p_turnstileToken payload)] |}.

(** [v === CONFIG.frontendSignature] *)
Definition is_frontendSignature (v : option json) : bool :=
  match v with
  | Some (JStr s) => String.eqb s CONFIG.frontendSignature
  | _ => false
  end.

(** What the callback makes of the answer.  [parse] is [JSON.parse], [None]
    where it throws. *)
Definition attempt_of (page : Page) (parse : jsstring -> option json)
    (edgeEndpoints : list string) (index : nat) (answer : Answer) : Attempt :=
  let isFallback := (index =? length edgeEndpoints)%nat in
  match answer with
  | NoAnswer e => Failed index (err_message e) (requestId page)
  | Answered false status _ =>
      Failed index ("HTTP " ++ pretty status) (requestId page)
  | Answered true _ text =>
      if isFallback then Succeeded index "fallback" DataOk (requestId page)
      else
        match text with
        | Throw e => Failed index (err_message e) (requestId page)
        | Ret [] => Succeeded index "primary" DataOk (requestId page)
        | Ret responseText =>
            match parse responseText with
            | None => Succeeded index "primary" (DataRaw responseText) (requestId page)
            | Some data =>
                match property data "signature" with
                | Throw e => Failed index (err_message e) (requestId page)
                | Ret signature =>
                    if (truthy signature && negb (is_frontendSignature signature))%bool
                    then Failed index "Invalid response signature" (requestId page)
                    else Succeeded index "primary" (DataParsed data) (requestId page)
                end
            end
        end
  end.

(** [results.find((result, idx) => ... && keep idx)] over the settled
    attempts, from index [i] on. *)
Fixpoint find_success (keep : nat -> bool) (i : nat) (attempts : list Attempt) :
    option Attempt :=
  match attempts with
  | [] => None
  | a :: rest =>
      if (attempt_success a && keep i)%bool then Some a
      else find_success keep (S i) rest
  end.

(** [allEndpoints] *)
Definition allEndpoints (edgeEndpoints : list string) : list string :=
  (edgeEndpoints ++ [CONFIG.fallbackEndpoint])%list.

(** The requests [racePatternSubmit] sends: one per endpoint, in the order of
    [allEndpoints]. *)
Definition race_requests (page : Page) (edgeEndpoints : list string)
    (payload : Payload) : list Sent :=
  imap (fun index endpoint => request_for page edgeEndpoints payload endpoint index)
       (allEndpoints edgeEndpoints).

(** The values of [results] once all requests have settled; every request
    catches its own errors, so all are fulfilled.  [remote] is the answer a
    request gets. *)
Definition race_results (page : Page) (parse : jsstring -> option json)
    (remote : Sent -> Answer) (edgeEndpoints : list string) (payload : Payload) :
    list Attempt :=
  imap (fun index request => attempt_of page parse edgeEndpoints index (remote request))
       (race_requests page edgeEndpoints payload).

(** [racePatternSubmit(payload)]: what it settles to. *)
Definition racePatternSubmit (page : Page) (parse : jsstring -> option json)
    (remote : Sent -> Answer) (edgeEndpoints : list string) (payload : Payload) :
    outcome Attempt :=
  let results := race_results page parse remote edgeEndpoints payload in
  match find_success (fun idx => (idx <? length edgeEndpoints)%nat) 0 results with
  | Some primarySuccess => Ret primarySuccess
  | None =>
      match find_success (fun idx => (idx =? length edgeEndpoints)%nat) 0 results with
      | Some fallbackSuccess => Ret fallbackSuccess
      | None => Throw (mkError "Error" "All endpoints unavailable. Please try again.")
      end
  end.

(** ** Sample inputs of the page *)

Definition worker_endpoint : string :=
  "https://compute-exchange-lead-capture.cx-portal.workers.dev/".

Definition sample_page : Page :=
  {| requestId := str "req_lx2k3_ab12cd3";
     timestamp_now := str "1735689600000";
     origin := str "https://bdtec.ai" |}.

Definition sample_payload : Payload :=
  {| p_referenceId := str "req_lx2k3_zz99yy8";
     p_company := str "Acme";
     p_email := str "alice@example.com";
     p_gpuScale := str "8";
     p_turnstileToken := str "0.token" |}.

(** The worker answers 403, the fallback answers 200. *)
Definition worker_rejects (request : Sent) : Answer :=
  if String.eqb (sent_to request) worker_endpoint
  then Answered false 403 (Ret (str "Bot detected"))
  else Answered true 200 (Ret (str "OK")).

(** No endpoint answers. *)
Definition offline (request : Sent) : Answer :=
  NoAnswer (mkError "TypeError" "Failed to fetch").

Definition no_json (text : jsstring) : option json := None.

Definition page_form : PageForm :=
  [("website-url", []);
   ("email", str "alice@example.com");
   ("company", str "Acme")].

Definition bot_form : PageForm :=
  [("website-url", str "http://spam.example");
   ("email", str "alice@example.com");
   ("company", str "Acme")].

Definition good_token : jsval := JsString (str "0." ++ repeat 97%N 120)%list.

(** ** What [emailRegex] accepts, structurally *)

(** A label of a domain: 1 to 63 letters, digits and hyphens, with no hyphen
    at either end. *)
Definition valid_label (l : jsstring) : bool :=
  match l with
  | [] => false
  | a :: rest =>
      (is_alnum a && (length l <=? 63)%nat && forallb is_alnum_dash rest
       && match last rest with Some z => is_alnum z | None => true end)%bool
  end.

(** A non-empty local part of allowed characters, one [@], and at least two
    labels separated by dots. *)
Definition email_shape (s : jsstring) : bool :=
  match split 64 s with
  | [local; domain] =>
      (negb (bool_decide (local = [])) && forallb is_local local
       && (2 <=? length (split 46 domain))%nat
       && forallb valid_label (split 46 domain))%bool
  | _ => false
  end.

(** [parts.join(c)] *)
Fixpoint join (c : N) (parts : list jsstring) : jsstring :=
  match parts with
  | [] => []
  | [p] => p
  | p :: rest => (p ++ c :: join c rest)%list
  end.

(** The escapes of [sanitizeString] that can apply to an accepted email. *)
Definition escape_amp_apos (s : jsstring) : jsstring :=
  replace_all 39 (str "&#x27;") (replace_all 38 (str "&amp;") s).

(** The characters [sanitizeString] never lets through: the four it escapes
    that are not [&], and the control characters it deletes. *)
Definition is_markup_or_control (c : N) : bool :=
  (N.eqb c 60 || N.eqb c 62 || N.eqb c 34 || N.eqb c 39 || is_control c)%bool.

(** The five characters [sanitizeString] escapes. *)
Definition is_escaped (c : N) : bool :=
  (N.eqb c 38 || N.eqb c 60 || N.eqb c 62 || N.eqb c 34 || N.eqb c 39)%bool.

(** The characters of an accepted email. *)
Definition is_email_unit (c : N) : bool := (is_local c || N.eqb c 64)%bool.

(** [!(!company || company.trim().length < 2)] *)
Definition company_ok (company : jsval) : bool :=
  match company with
  | JsString c => (2 <=? length (trim c))%nat
  | _ => false
  end.

(** A pending timer is due [delay] after [lastCall]. *)
Definition timer_due {A : Type} (delay : Z) (st : Debounced A) : Prop :=
  match pending st with
  | Some (due, _) => due = (lastCall st + delay)%Z
  | None => True
  end.

(** A sample schedule: three clicks in quick succession, the timer, a late
    click, the timer. *)
Definition sample_ticks : list (Tick string) :=
  [Invoke 5000 "a"; Invoke 5200 "b"; Invoke 5400 "c"; TimerFires 6003;
   Invoke 6100 "d"; TimerFires 7003].

(** ** Proof support *)

Ltac unfold_handlers :=
  unfold handler, BackupWorker.fetch, Part000.fetch, ConfigExample.fetch,
    WorkerCorsComplete.handleRequest, WorkerCorsComplete.handlePost in *.

(** Runs the monadic code of a hypothesis as far as the oracles allow. *)
Ltac run_in H :=
  cbv beta iota zeta delta
    [WorkerCorsComplete.verifyTurnstile
     mbind M_bind mret M_ret try_catch settle request_formData
     global_fetch Response_json get_property crypto_randomUUID
     Date_toISOString kv_put console emit
     String.eqb Ascii.eqb Bool.eqb negb] in H;
  cbn [trace kv uuid_count fst snd] in H.

(** Splits a run on the innermost undetermined answer. *)
Ltac split_run H :=
  match type of H with
  | context [match ?x with _ => _ end] =>
      lazymatch x with
      | context [match _ with _ => _ end] => fail
      | _ => destruct x eqn:?
      end
  end.

(** All the ways a POST can go: one goal per path through the handler. *)
Ltac post_cases Hm Hrun :=
  unfold_handlers; rewrite Hm in Hrun; run_in Hrun;
  repeat (split_run Hrun; run_in Hrun);
  inversion Hrun; subst; clear Hrun; cbn [trace kv uuid_count];
  rewrite <- ?app_assoc; cbn [app].

Lemma property_Ret (v : json) (name : string) (x : option json) :
  property v name = Ret x -> field v name = x.
Proof. destruct v; cbn; intros H; inversion H; reflexivity. Qed.

Lemma property_Throw (v : json) (name : string) (e : JsError) :
  property v name = Throw e -> v = JNull.
Proof. destruct v; cbn; intros H; inversion H; reflexivity. Qed.

(** Brings the recorded answers of the oracles into the goal. *)
Ltac use_answers :=
  repeat match goal with
         | H : network _ _ _ = _ |- _ => rewrite H
         | H : json_result _ = _ |- _ => rewrite H
         | H : property _ _ = _ |- _ => rewrite H
         | H : truthy _ = _ |- _ => rewrite H
         | H : truthy_entry _ = _ |- _ => rewrite H
         | H : kv_fault _ _ _ = _ |- _ => rewrite H
         end.

(** The same, into a hypothesis. *)
Ltac use_answers_in V :=
  repeat match goal with
         | H : network _ _ _ = _ |- _ => rewrite H in V
         | H : json_result _ = _ |- _ => rewrite H in V
         | H : property _ _ = _ |- _ => rewrite H in V
         | H : truthy _ = _ |- _ => rewrite H in V
         | H : truthy_entry _ = _ |- _ => rewrite H in V
         | H : kv_fault _ _ _ = _ |- _ => rewrite H in V
         end.

Lemma method_other (m : string) :
  m <> "OPTIONS" -> m <> "POST" ->
  String.eqb m "OPTIONS" = false /\ String.eqb m "POST" = false.
Proof. intros H1 H2. split; apply String.eqb_neq; assumption. Qed.

Lemma sample_uuid_inj (i j : nat) : sample_uuid i = sample_uuid j -> i = j.
Proof.
  unfold sample_uuid. intros H.
  apply (inj (String.app "00000000-0000-4000-8000-")) in H.
  apply (inj pretty) in H. exact H.
Qed.

(** ** Preflight *)

(** C5: every draft answers a request of method OPTIONS with status 204, no
    body and the three cross-origin headers, before anything else: the state
    (namespace, identifier counter, trace) is returned as it was, so nothing
    was parsed, called or written. *)
Theorem C5_options_preflight (d : Draft) (P : Platform) (request : Request)
    (env : Env) (s : State) :
  method request = "OPTIONS" ->
  exists r,
    handler d P request env s = (Ret r, s) /\
    status r = 204 /\
    body r = BodyNull /\
    has_header r "Access-Control-Allow-Origin" = true /\
    has_header r "Access-Control-Allow-Methods" = true /\
    has_header r "Access-Control-Allow-Headers" = true.
Proof.
  intros Hm. unfold_handlers. rewrite Hm.
  destruct d; cbn [String.eqb Ascii.eqb Bool.eqb]; eexists; (split; [reflexivity |]);
    repeat split; reflexivity.
Qed.

Lemma C5_options_preflight_witness :
  exists r,
    handler backup_worker unreachable options_request env0 initial = (Ret r, initial) /\
    status r = 204 /\
    body r = BodyNull /\
    has_header r "Access-Control-Allow-Origin" = true /\
    has_header r "Access-Control-Allow-Methods" = true /\
    has_header r "Access-Control-Allow-Headers" = true.
Proof. apply C5_options_preflight. reflexivity. Defined.

(** ** The write and the verdict *)

(** C1, as the code has it: in the three drafts bound to a namespace, a POST
    issues a [put] if and only if its verification call reported success, and
    never more than one.  The call is made when the form parses, and reports
    success exactly when the service accepts the submitted token: a POST whose
    form parses issues a [put] if and only if the service accepts the token,
    and one whose form does not parse issues none.  Without a [put] the
    namespace is left as it was.
    With one, the record is persisted under its key exactly when the namespace
    accepts the write; when the namespace refuses it, nothing is persisted and
    the handler ends with the fault of the namespace. *)
Theorem C1_write_iff_verified (d : Draft) (P : Platform) (request : Request)
    (env : Env) (s s' : State) (o : outcome Response) :
  has_store d = true ->
  method request = "POST" ->
  handler d P request env s = (o, s') ->
  exists evs,
    trace s' = (trace s ++ evs)%list /\
    (kv_puts evs <> [] <-> reported_success P evs = true) /\
    (length (kv_puts evs) <= 1)%nat /\
    (kv_puts evs = [] -> kv s' = kv s) /\
    (forall e, formData request = Throw e -> kv_puts evs = []) /\
    (forall fd, formData request = Ret fd ->
       (kv_puts evs <> [] <-> verdict d P env fd = Some true)) /\
    (forall key record, In (key, record) (kv_puts evs) ->
       match kv_fault P key record with
       | None => kv s' = <[key := record]> (kv s)
       | Some e => kv s' = kv s /\ o = Throw e
       end).
Proof.
  intros Hd Hm Hrun.
  destruct d; try discriminate Hd; post_cases Hm Hrun.
  all: eexists; (split; [reflexivity |]).
  all: (split;
         [unfold reported_success, call_verdict; cbn; use_answers; cbn;
          split; intros Hw;
          first [ reflexivity | discriminate Hw | exfalso; apply Hw; reflexivity
                | intros Hn; discriminate Hn ] |]).
  all: (split; [cbn; lia |]).
  all: (split; [cbn; first [reflexivity | intros Hn; discriminate Hn] |]).
  all: (split; [intros e0 He0; first [reflexivity | congruence] |]).
  all: split.
  all: try (intros fd Hfd; first
         [ discriminate Hfd
         | inversion Hfd; subst;
           unfold verdict, call_verdict, verification_call, token_of;
           cbn; use_answers; cbn;
           split; intros Hw;
           first [ reflexivity | discriminate Hw | exfalso; apply Hw; reflexivity
                 | intros Hn; discriminate Hn ] ]).
  all: try (intros key record [Hin | []]; inversion Hin; subst; use_answers;
            first [reflexivity | split; reflexivity]).
  all: intros key record [].
Qed.

Lemma C1_write_iff_verified_witness :
  exists evs,
    trace (sample_run backup_worker accepting post_alice).2 = (trace initial ++ evs)%list /\
    (kv_puts evs <> [] <-> reported_success accepting evs = true) /\
    (length (kv_puts evs) <= 1)%nat /\
    (kv_puts evs = [] -> kv (sample_run backup_worker accepting post_alice).2 = kv initial) /\
    (forall e, formData post_alice = Throw e -> kv_puts evs = []) /\
    (forall fd, formData post_alice = Ret fd ->
       (kv_puts evs <> [] <-> verdict backup_worker accepting env0 fd = Some true)) /\
    (forall key record, In (key, record) (kv_puts evs) ->
       match kv_fault accepting key record with
       | None => kv (sample_run backup_worker accepting post_alice).2
                 = <[key := record]> (kv initial)
       | Some e => kv (sample_run backup_worker accepting post_alice).2 = kv initial /\
                   (sample_run backup_worker accepting post_alice).1 = Throw e
       end).
Proof.
  apply (C1_write_iff_verified backup_worker accepting post_alice env0 initial _
           (sample_run backup_worker accepting post_alice).1).
  - reflexivity.
  - reflexivity.
  - vm_compute. reflexivity.
Defined.

(** C1, as the specification has it, fails where the namespace refuses the
    write: the service accepted the token of the form, yet the handler ends
    with the fault of the namespace and the namespace holds no record. *)
Lemma C1_verified_yet_not_persisted :
  verdict backup_worker store_down env0 alice_form = Some true /\
  kv (sample_run backup_worker store_down post_alice).2 = kv initial /\
  (sample_run backup_worker store_down post_alice).1 =
    Throw (mkError "Error" "KV PUT failed: 429 Too Many Requests") /\
  ~ persisted_iff_verified backup_worker store_down env0 alice_form
      (sample_run backup_worker store_down post_alice).2.
Proof.
  assert (Hv : verdict backup_worker store_down env0 alice_form = Some true)
    by reflexivity.
  assert (Hkv : kv (sample_run backup_worker store_down post_alice).2 = kv initial)
    by (vm_compute; reflexivity).
  split; [exact Hv |]. split; [exact Hkv |]. split; [vm_compute; reflexivity |].
  intros [_ Hback]. destruct (Hback Hv) as (key & record & Hk & _).
  rewrite Hkv in Hk. cbn in Hk. rewrite ?lookup_empty in Hk. discriminate Hk.
Qed.

(** Settles a goal whose hypotheses on the verdict contradict the recorded
    answers of the oracles. *)
Ltac verdict_conflict :=
  match goal with
  | V : verdict _ _ _ _ = _ |- _ =>
      unfold verdict, call_verdict, verification_call, token_of in V;
      use_answers_in V; discriminate V
  end.

(** ** Effects of a POST *)

(** C7, as amended: in the drafts bound to a namespace, a POST whose form
    parses makes exactly one outbound call, to the verification service with
    the submitted token, followed by at most one write; a POST whose form does
    not parse makes no call and no write.  Apart from reading the request and
    console output there is no other effect. *)
Theorem C7_post_effects (d : Draft) (P : Platform) (request : Request)
    (env : Env) (s s' : State) (o : outcome Response) :
  has_store d = true ->
  method request = "POST" ->
  handler d P request env s = (o, s') ->
  exists evs,
    trace s' = (trace s ++ evs)%list /\
    match formData request with
    | Throw _ => io_events evs = [EvFormData]
    | Ret fd =>
        let call := EvFetch siteverify_url (verification_call d env (token_of fd)) in
        io_events evs = [EvFormData; call] \/
        exists key record, io_events evs = [EvFormData; call; EvKvPut key record]
    end.
Proof.
  intros Hd Hm Hrun.
  destruct d; try discriminate Hd; post_cases Hm Hrun.
  all: eexists; (split; [reflexivity |]).
  all: cbn; first [ reflexivity | left; reflexivity | right; eauto ].
Qed.

Lemma C7_post_effects_witness :
  exists evs,
    trace (sample_run part_000 accepting post_alice).2 = (trace initial ++ evs)%list /\
    match formData post_alice with
    | Throw _ => io_events evs = [EvFormData]
    | Ret fd =>
        let call :=
          EvFetch siteverify_url (verification_call part_000 env0 (token_of fd)) in
        io_events evs = [EvFormData; call] \/
        exists key record, io_events evs = [EvFormData; call; EvKvPut key record]
    end.
Proof.
  apply (C7_post_effects part_000 accepting post_alice env0 initial _
           (sample_run part_000 accepting post_alice).1).
  - reflexivity.
  - reflexivity.
  - vm_compute. reflexivity.
Defined.

(** C7, as stated, fails: a POST whose body is not a form makes no
    verification call at all. *)
Lemma C7_unparsable_form_no_call :
  method post_unparsable = "POST" /\
  ~ one_call_at_most_one_write (trace (sample_run backup_worker accepting post_unparsable).2).
Proof.
  split; [reflexivity |].
  intros [Hcalls _]. vm_compute in Hcalls. discriminate Hcalls.
Qed.

(** ** The identifier *)

(** C10: in the drafts bound to a namespace, a POST answered with status 200
    carries in its body the identifier of the one record it wrote, and the
    namespace holds that record under the key of the write. *)
Theorem C10_response_id_is_stored_id (d : Draft) (P : Platform) (request : Request)
    (env : Env) (s s' : State) (r : Response) :
  has_store d = true ->
  method request = "POST" ->
  handler d P request env s = (Ret r, s') ->
  status r = 200 ->
  exists evs id key record,
    trace s' = (trace s ++ evs)%list /\
    body r = ack_body id /\
    kv_puts evs = [(key, record)] /\
    field record "id" = Some (JStr id) /\
    kv s' !! key = Some record.
Proof.
  intros Hd Hm Hrun Hst.
  destruct d; try discriminate Hd; post_cases Hm Hrun; try discriminate Hst.
  all: do 4 eexists; split; [reflexivity |].
  all: cbn; repeat split; apply lookup_insert_eq.
Qed.

Lemma C10_response_id_is_stored_id_witness :
  exists evs id key record,
    trace (sample_run config_example accepting post_alice).2 = (trace initial ++ evs)%list /\
    body {| status := 200;
            headers := [("Content-Type", "application/json");
                        ("Access-Control-Allow-Origin", "*")];
            body := ack_body (sample_uuid 0) |} = ack_body id /\
    kv_puts evs = [(key, record)] /\
    field record "id" = Some (JStr id) /\
    kv (sample_run config_example accepting post_alice).2 !! key = Some record.
Proof.
  apply (C10_response_id_is_stored_id config_example accepting post_alice env0 initial).
  - reflexivity.
  - reflexivity.
  - vm_compute. reflexivity.
  - reflexivity.
Defined.

(** ** An accepted token *)




(** ** A rejected token *)

(** C4 in backup_worker.js: a rejected token is answered with status 403 and
    no write, but the body is the plain text "Bot detected" and the response
    does not carry the cross-origin header, so neither the JSON body nor the
    cross-origin header of the specification is there. *)
Theorem C4_backup_worker_rejection (P : Platform) (request : Request)
    (env : Env) (fd : FormData) (s : State) :
  method request = "POST" ->
  formData request = Ret fd ->
  verdict backup_worker P env fd = Some false ->
  exists r s',
    handler backup_worker P request env s = (Ret r, s') /\
    status r = 403 /\
    body r = BodyText "Bot detected" /\
    has_header r "Access-Control-Allow-Origin" = false /\
    kv s' = kv s /\
    kv_puts (trace s') = kv_puts (trace s) /\
    ~ rejects_as_specified (Ret r).
Proof.
  intros Hm Hfd Hv.
  destruct (handler backup_worker P request env s) as [o s'] eqn:Hrun.
  post_cases Hm Hrun; try discriminate Hfd.
  all: inversion Hfd; subst; try verdict_conflict.
  do 2 eexists; split; [reflexivity |]. cbn.
  repeat split.
  - unfold kv_puts. rewrite !omap_app. cbn. rewrite !app_nil_r. reflexivity.
  - intros (r & msg & Ho & _ & Hbody & _). inversion Ho; subst. discriminate Hbody.
Qed.

Lemma C4_backup_worker_rejection_witness :
  exists r s',
    handler backup_worker rejecting post_alice env0 initial = (Ret r, s') /\
    status r = 403 /\
    body r = BodyText "Bot detected" /\
    has_header r "Access-Control-Allow-Origin" = false /\
    kv s' = kv initial /\
    kv_puts (trace s') = kv_puts (trace initial) /\
    ~ rejects_as_specified (Ret r).
Proof.
  apply (C4_backup_worker_rejection rejecting post_alice env0 alice_form initial);
    reflexivity.
Defined.

(** The worker of config.example.js rejects as the specification asks: status
    403, [{success: false, error}] with a fixed message, the cross-origin
    header, no write. *)
Lemma rejection_config_example (P : Platform) (request : Request)
    (env : Env) (fd : FormData) (s : State) :
  method request = "POST" ->
  formData request = Ret fd ->
  verdict config_example P env fd = Some false ->
  exists r s',
    handler config_example P request env s = (Ret r, s') /\
    rejects_as_specified (Ret r) /\
    body r = BodyJSON (JObj [("success", JBool false);
                             ("error", JStr "Turnstile verification failed")]) /\
    kv s' = kv s.
Proof.
  intros Hm Hfd Hv.
  destruct (handler config_example P request env s) as [o s'] eqn:Hrun.
  post_cases Hm Hrun; try discriminate Hfd.
  all: inversion Hfd; subst; try verdict_conflict.
  do 2 eexists; split; [reflexivity |]. cbn.
  repeat split. unfold rejects_as_specified. do 2 eexists. repeat split.
Qed.

(** part_000 adds the whole answer of the verification service to the body of
    its rejection, under [details]. *)
Lemma rejection_part_000_details (P : Platform) (request : Request)
    (env : Env) (fd : FormData) (s : State) :
  method request = "POST" ->
  formData request = Ret fd ->
  verdict part_000 P env fd = Some false ->
  exists r s' verification,
    handler part_000 P request env s = (Ret r, s') /\
    network P siteverify_url (verification_call part_000 env (token_of fd))
      = Ret {| json_result := Ret verification |} /\
    status r = 403 /\
    body r = BodyJSON (JObj [("success", JBool false);
                             ("error", JStr "Turnstile verification failed");
                             ("details", verification)]) /\
    has_header r "Access-Control-Allow-Origin" = true /\
    kv s' = kv s.
Proof.
  intros Hm Hfd Hv.
  destruct (handler part_000 P request env s) as [o s'] eqn:Hrun.
  post_cases Hm Hrun; try discriminate Hfd.
  all: inversion Hfd; subst; try verdict_conflict.
  all: do 3 eexists; split; [reflexivity |]; cbn.
  all: unfold verification_call, token_of.
  all: match goal with
       | H : network _ _ _ = Ret ?a |- _ => rewrite H; destruct a as [jr]
       end.
  all: cbn in *; subst; repeat split.
Qed.

(** ** Other methods *)

(** C6 in backup_worker.js and worker-cors-complete.js: a request that is
    neither OPTIONS nor POST is answered with status 405 and a plain-text
    body, with nothing done, but the response does not carry the cross-origin
    header. *)
Theorem C6_method_not_allowed_without_cors (d : Draft) (P : Platform)
    (request : Request) (env : Env) (s : State) :
  d = backup_worker \/ d = worker_cors_complete ->
  method request <> "OPTIONS" ->
  method request <> "POST" ->
  exists r text,
    handler d P request env s = (Ret r, s) /\
    status r = 405 /\
    body r = BodyText text /\
    has_header r "Access-Control-Allow-Origin" = false.
Proof.
  intros Hd Ho Hp. destruct (method_other _ Ho Hp) as [Eo Ep].
  unfold_handlers.
  destruct Hd as [-> | ->]; rewrite Eo, Ep; cbn [negb];
    do 2 eexists; (split; [reflexivity |]); repeat split.
Qed.

Lemma C6_method_not_allowed_without_cors_witness :
  exists r text,
    handler backup_worker accepting get_request env0 initial = (Ret r, initial) /\
    status r = 405 /\
    body r = BodyText text /\
    has_header r "Access-Control-Allow-Origin" = false.
Proof.
  apply (C6_method_not_allowed_without_cors backup_worker accepting get_request env0 initial).
  - left. reflexivity.
  - intros H. discriminate H.
  - intros H. discriminate H.
Defined.

(** part_000 and the worker of config.example.js do carry the header on
    their 405. *)
Lemma method_not_allowed_with_cors (d : Draft) (P : Platform)
    (request : Request) (env : Env) (s : State) :
  d = part_000 \/ d = config_example ->
  method request <> "OPTIONS" ->
  method request <> "POST" ->
  exists r,
    handler d P request env s = (Ret r, s) /\
    status r = 405 /\
    body r = BodyText "Method Not Allowed" /\
    has_header r "Access-Control-Allow-Origin" = true.
Proof.
  intros Hd Ho Hp. destruct (method_other _ Ho Hp) as [Eo Ep].
  unfold_handlers.
  destruct Hd as [-> | ->]; rewrite Eo, Ep; cbn [negb];
    eexists; (split; [reflexivity |]); repeat split.
Qed.

(** ** Two submissions *)

(** C8: two POSTs handled one after the other, both answered with status 200,
    carry the two identifiers drawn from the generator for them, one draw
    each; a generator that never repeats makes them distinct, whatever the
    two forms hold. *)
Theorem C8_two_submissions_two_ids (d : Draft) (P1 P2 : Platform)
    (req1 req2 : Request) (env1 env2 : Env) (s0 s1 s2 : State) (r1 r2 : Response) :
  method req1 = "POST" ->
  method req2 = "POST" ->
  uuid_source P2 = uuid_source P1 ->
  (forall i j, uuid_source P1 i = uuid_source P1 j -> i = j) ->
  handler d P1 req1 env1 s0 = (Ret r1, s1) ->
  handler d P2 req2 env2 s1 = (Ret r2, s2) ->
  status r1 = 200 ->
  status r2 = 200 ->
  exists id1 id2,
    body r1 = ack_body id1 /\
    body r2 = ack_body id2 /\
    id1 = uuid_source P1 (uuid_count s0) /\
    id2 = uuid_source P1 (S (uuid_count s0)) /\
    id1 <> id2.
Proof.
  intros Hm1 Hm2 Hsrc Hinj Hrun1 Hrun2 Hst1 Hst2.
  assert (Hfirst : body r1 = ack_body (uuid_source P1 (uuid_count s0)) /\
                   uuid_count s1 = S (uuid_count s0)).
  { clear Hrun2 Hst2 Hm2.
    destruct d; post_cases Hm1 Hrun1; try discriminate Hst1; split; reflexivity. }
  destruct Hfirst as [Hb1 Hc1].
  assert (Hsecond : body r2 = ack_body (uuid_source P2 (uuid_count s1))).
  { clear Hrun1 Hst1 Hm1 Hb1.
    destruct d; post_cases Hm2 Hrun2; try discriminate Hst2; reflexivity. }
  rewrite Hsrc, Hc1 in Hsecond.
  do 2 eexists. repeat split; try eassumption.
  intros Heq. apply Hinj in Heq. lia.
Qed.

Lemma C8_two_submissions_two_ids_witness :
  exists id1 id2,
    body {| status := 200;
            headers := [("Content-Type", "application/json");
                        ("Access-Control-Allow-Origin", "*")];
            body := ack_body (sample_uuid 0) |} = ack_body id1 /\
    body {| status := 200;
            headers := [("Content-Type", "application/json");
                        ("Access-Control-Allow-Origin", "*")];
            body := ack_body (sample_uuid 1) |} = ack_body id2 /\
    id1 = uuid_source accepting (uuid_count initial) /\
    id2 = uuid_source accepting (S (uuid_count initial)) /\
    id1 <> id2.
Proof.
  apply (C8_two_submissions_two_ids backup_worker accepting accepting
           post_alice post_alice_no_company env0 env0 initial
           (sample_run backup_worker accepting post_alice).2
           (handler backup_worker accepting post_alice_no_company env0
              (sample_run backup_worker accepting post_alice).2).2).
  - reflexivity.
  - reflexivity.
  - reflexivity.
  - exact sample_uuid_inj.
  - vm_compute. reflexivity.
  - vm_compute. reflexivity.
  - reflexivity.
  - reflexivity.
Defined.

(** ** The company field *)

(** C9: in the two drafts keyed by [lead:<email>], the run is the same for
    any two forms with the same [email] and the same token, so no other
    field, [company] among them, is read; and every record written has
    exactly the fields [email], [timestamp], [id], and is what the namespace
    holds under its key once the store has taken the write. *)
Theorem C9_company_never_stored (d : Draft) (P : Platform) (env : Env)
    (s : State) (fd fd' : FormData) :
  keyed_by_email d = true ->
  FormData_get fd "email" = FormData_get fd' "email" ->
  token_of fd = token_of fd' ->
  handler d P {| method := "POST"; formData := Ret fd |} env s =
  handler d P {| method := "POST"; formData := Ret fd' |} env s /\
  forall o s',
    handler d P {| method := "POST"; formData := Ret fd |} env s = (o, s') ->
    exists evs,
      trace s' = (trace s ++ evs)%list /\
      forall key record,
        In (key, record) (kv_puts evs) ->
        field_names record = ["email"; "timestamp"; "id"] /\
        (kv_fault P key record = None -> kv s' !! key = Some record).
Proof.
  intros Hd He Ht. split.
  - unfold token_of in Ht.
    destruct d; try discriminate Hd; unfold_handlers;
      cbv beta iota zeta delta
        [mbind M_bind mret M_ret request_formData method formData
         String.eqb Ascii.eqb Bool.eqb negb];
      rewrite He, Ht; reflexivity.
  - intros o s' Hrun.
    assert (Hm : method {| method := "POST"; formData := Ret fd |} = "POST")
      by reflexivity.
    destruct d; try discriminate Hd; post_cases Hm Hrun.
    all: eexists; (split; [reflexivity |]); cbn.
    all: intros key record Hin;
      repeat (destruct Hin as [Hin | Hin]; [inversion Hin; subst |]);
      try contradiction.
    all: split; [reflexivity |]; intros Hok; try congruence.
    all: apply lookup_insert_eq.
Qed.

Lemma C9_company_never_stored_witness :
  handler part_000 accepting {| method := "POST"; formData := Ret alice_form |} env0 initial =
  handler part_000 accepting
    {| method := "POST"; formData := Ret alice_form_no_company |} env0 initial /\
  forall o s',
    handler part_000 accepting
      {| method := "POST"; formData := Ret alice_form |} env0 initial = (o, s') ->
    exists evs,
      trace s' = (trace initial ++ evs)%list /\
      forall key record,
        In (key, record) (kv_puts evs) ->
        field_names record = ["email"; "timestamp"; "id"] /\
        (kv_fault accepting key record = None -> kv s' !! key = Some record).
Proof.
  apply (C9_company_never_stored part_000 accepting env0 initial
           alice_form alice_form_no_company); reflexivity.
Defined.

(** ** Faults *)




(** worker-cors-complete.js asks the service only about a token that is
    there, and then with the call that [verification_call] names. *)
Lemma worker_cors_complete_calls (P : Platform) (request : Request) (env : Env)
    (fd : FormData) (s s' : State) (o : outcome Response) :
  method request = "POST" ->
  formData request = Ret fd ->
  handler worker_cors_complete P request env s = (o, s') ->
  exists evs,
    trace s' = (trace s ++ evs)%list /\
    kv_puts evs = [] /\
    fetch_calls evs =
      if truthy_entry (token_of fd)
      then [(siteverify_url, verification_call worker_cors_complete env (token_of fd))]
      else [].
Proof.
  intros Hm Hfd Hrun. post_cases Hm Hrun; try discriminate Hfd.
  all: inversion Hfd; subst; unfold token_of.
  all: eexists; (split; [reflexivity |]); use_answers; split; reflexivity.
Qed.

(** Identifies the form a run parsed with the form of the statement. *)
Ltac same_form :=
  repeat match goal with
         | H1 : formData ?r = Ret ?a, H2 : formData ?r = Ret ?b |- _ =>
             rewrite H1 in H2; inversion H2; subst; clear H2
         | H : @Ret FormData _ = Ret _ |- _ => inversion H; subst; clear H
         end;
  try match goal with
      | H : @Throw FormData _ = Ret _ |- _ => discriminate H
      end.

(** ** One record per email, or one per submission *)

(** In the two drafts keyed by [lead:<email>], a second accepted submission
    with the same [email] replaces the record of the first: after both, the
    namespace differs from the one before them in that single key, which holds
    the record with the second identifier. *)
Theorem resubmission_overwrites (d : Draft) (P1 P2 : Platform)
    (req1 req2 : Request) (e1 e2 : Env) (fd1 fd2 : FormData)
    (s0 s1 s2 : State) (r1 r2 : Response) :
  keyed_by_email d = true ->
  method req1 = "POST" ->
  method req2 = "POST" ->
  formData req1 = Ret fd1 ->
  formData req2 = Ret fd2 ->
  FormData_get fd1 "email" = FormData_get fd2 "email" ->
  handler d P1 req1 e1 s0 = (Ret r1, s1) ->
  handler d P2 req2 e2 s1 = (Ret r2, s2) ->
  status r1 = 200 ->
  status r2 = 200 ->
  exists id2 record,
    body r2 = ack_body id2 /\
    field record "id" = Some (JStr id2) /\
    kv s2 = <["lead:" ++ template_of (FormData_get fd2 "email") := record]> (kv s0).
Proof.
  intros Hd Hm1 Hm2 Hf1 Hf2 He Hrun1 Hrun2 Hst1 Hst2.
  assert (Hone : exists rec1,
             kv s1 = <["lead:" ++ template_of (FormData_get fd1 "email") := rec1]> (kv s0)).
  { clear Hrun2 Hst2 Hm2 Hf2 He.
    destruct d; try discriminate Hd; post_cases Hm1 Hrun1; try discriminate Hst1.
    all: same_form; eexists; reflexivity. }
  destruct Hone as [rec1 Hkv1]. clear Hrun1 Hst1 Hm1 Hf1.
  destruct d; try discriminate Hd; post_cases Hm2 Hrun2; try discriminate Hst2.
  all: same_form.
  all: do 2 eexists; split; [reflexivity |].
  all: split; [| rewrite Hkv1, He; apply insert_insert_eq].
  all: reflexivity.
Qed.

Lemma resubmission_overwrites_witness :
  exists id2 record,
    body {| status := 200;
            headers := [("Content-Type", "application/json");
                        ("Access-Control-Allow-Origin", "*")];
            body := ack_body (sample_uuid 1) |} = ack_body id2 /\
    field record "id" = Some (JStr id2) /\
    kv (handler part_000 accepting post_alice_no_company env0
          (sample_run part_000 accepting post_alice).2).2 =
      <["lead:" ++ template_of (FormData_get alice_form_no_company "email") := record]>
        (kv initial).
Proof.
  eapply (resubmission_overwrites part_000 accepting accepting
           post_alice post_alice_no_company env0 env0 alice_form alice_form_no_company
           initial (sample_run part_000 accepting post_alice).2).
  - reflexivity.
  - reflexivity.
  - reflexivity.
  - reflexivity.
  - reflexivity.
  - reflexivity.
  - vm_compute. reflexivity.
  - vm_compute. reflexivity.
  - reflexivity.
  - reflexivity.
Defined.

(** The worker of config.example.js keys by the identifier and stores the
    company: after two accepted submissions, whatever their emails, the
    namespace holds both records, each under its own identifier and each with
    the [email] and the [company] of its form. *)
Theorem config_example_keeps_both (P1 P2 : Platform) (req1 req2 : Request)
    (e1 e2 : Env) (fd1 fd2 : FormData) (s0 s1 s2 : State) (r1 r2 : Response) :
  method req1 = "POST" ->
  method req2 = "POST" ->
  formData req1 = Ret fd1 ->
  formData req2 = Ret fd2 ->
  uuid_source P2 = uuid_source P1 ->
  (forall i j, uuid_source P1 i = uuid_source P1 j -> i = j) ->
  handler config_example P1 req1 e1 s0 = (Ret r1, s1) ->
  handler config_example P2 req2 e2 s1 = (Ret r2, s2) ->
  status r1 = 200 ->
  status r2 = 200 ->
  exists id1 id2 rec1 rec2,
    body r1 = ack_body id1 /\ body r2 = ack_body id2 /\ id1 <> id2 /\
    kv s2 !! id1 = Some rec1 /\ kv s2 !! id2 = Some rec2 /\
    field_names rec1 = ["email"; "company"; "timestamp"; "id"] /\
    field_names rec2 = ["email"; "company"; "timestamp"; "id"] /\
    field rec1 "email" = Some (json_of (FormData_get fd1 "email")) /\
    field rec1 "company" = Some (json_of (FormData_get fd1 "company")) /\
    field rec2 "email" = Some (json_of (FormData_get fd2 "email")) /\
    field rec2 "company" = Some (json_of (FormData_get fd2 "company")).
Proof.
  intros Hm1 Hm2 Hf1 Hf2 Hsrc Hinj Hrun1 Hrun2 Hst1 Hst2.
  assert (Hne : uuid_source P1 (uuid_count s0) <> uuid_source P1 (S (uuid_count s0))).
  { intros Heq. apply Hinj in Heq. lia. }
  unfold handler in Hrun1, Hrun2.
  post_cases Hm1 Hrun1; try discriminate Hst1.
  all: same_form.
  all: post_cases Hm2 Hrun2; try discriminate Hst2.
  all: same_form.
  all: rewrite Hsrc in *.
  all: do 4 eexists; split; [reflexivity |]; split; [reflexivity |].
  all: split; [exact Hne |].
  all: split; [rewrite lookup_insert_ne by (intros E; apply Hne; symmetry; exact E);
               apply lookup_insert_eq |].
  all: split; [apply lookup_insert_eq |].
  all: repeat split.
Qed.

Lemma config_example_keeps_both_witness :
  exists id1 id2 rec1 rec2,
    body {| status := 200;
            headers := [("Content-Type", "application/json");
                        ("Access-Control-Allow-Origin", "*")];
            body := ack_body (sample_uuid 0) |} = ack_body id1 /\
    body {| status := 200;
            headers := [("Content-Type", "application/json");
                        ("Access-Control-Allow-Origin", "*")];
            body := ack_body (sample_uuid 1) |} = ack_body id2 /\
    id1 <> id2 /\
    kv (handler config_example accepting post_alice env0
          (sample_run config_example accepting post_alice).2).2 !! id1 = Some rec1 /\
    kv (handler config_example accepting post_alice env0
          (sample_run config_example accepting post_alice).2).2 !! id2 = Some rec2 /\
    field_names rec1 = ["email"; "company"; "timestamp"; "id"] /\
    field_names rec2 = ["email"; "company"; "timestamp"; "id"] /\
    field rec1 "email" = Some (json_of (FormData_get alice_form "email")) /\
    field rec1 "company" = Some (json_of (FormData_get alice_form "company")) /\
    field rec2 "email" = Some (json_of (FormData_get alice_form "email")) /\
    field rec2 "company" = Some (json_of (FormData_get alice_form "company")).
Proof.
  eapply (config_example_keeps_both accepting accepting post_alice post_alice env0 env0
           alice_form alice_form initial (sample_run config_example accepting post_alice).2).
  - reflexivity.
  - reflexivity.
  - reflexivity.
  - reflexivity.
  - reflexivity.
  - exact sample_uuid_inj.
  - vm_compute. reflexivity.
  - vm_compute. reflexivity.
  - reflexivity.
  - reflexivity.
Defined.

(** ** Where the secret goes *)



(** ** A form without an email *)

(** The drafts keyed by [lead:<email>] do not look at the email: a form that
    has no [email] field, with an accepted token, is acknowledged like any
    other, and its record, whose [email] is null, goes under the key
    [lead:null], where every such submission lands. *)
Theorem missing_email_stored_under_null (d : Draft) (P : Platform)
    (request : Request) (env : Env) (fd : FormData) (s s' : State)
    (o : outcome Response) :
  keyed_by_email d = true ->
  method request = "POST" ->
  formData request = Ret fd ->
  FormData_get fd "email" = None ->
  verdict d P env fd = Some true ->
  (forall record, kv_fault P "lead:null" record = None) ->
  handler d P request env s = (o, s') ->
  exists r id,
    o = Ret r /\ status r = 200 /\ body r = ack_body id /\
    kv s' = <["lead:null" := JObj [("email", JNull);
                                    ("timestamp", JStr (now P));
                                    ("id", JStr id)]]> (kv s).
Proof.
  intros Hd Hm Hfd He Hv Hok Hrun.
  destruct d; try discriminate Hd; post_cases Hm Hrun; same_form.
  all: try verdict_conflict.
  all: try rewrite He in *; cbn [template_of json_of] in *.
  all: try match goal with
           | H : kv_fault _ _ _ = Some _ |- _ =>
               change ("lead:" ++ "null") with "lead:null" in H;
               rewrite Hok in H; discriminate H
           end.
  all: do 2 eexists; repeat split.
Qed.

Lemma missing_email_stored_under_null_witness :
  exists r id,
    (sample_run backup_worker accepting post_anonymous).1 = Ret r /\
    status r = 200 /\ body r = ack_body id /\
    kv (sample_run backup_worker accepting post_anonymous).2 =
      <["lead:null" := JObj [("email", JNull);
                              ("timestamp", JStr (now accepting));
                              ("id", JStr id)]]> (kv initial).
Proof.
  apply (missing_email_stored_under_null backup_worker accepting post_anonymous env0
           anonymous_form initial).
  - reflexivity.
  - reflexivity.
  - reflexivity.
  - reflexivity.
  - reflexivity.
  - intros record. reflexivity.
  - vm_compute. reflexivity.
Defined.

(** ** worker-cors-complete.js, branch by branch *)

(** A POST without a token, or with an empty one, is answered with status 400
    and "Missing Turnstile token" after the form has been read and nothing
    else: no outbound call, no identifier drawn. *)
Theorem missing_token_answered_400 (P : Platform) (request : Request)
    (env : Env) (fd : FormData) (s : State) :
  method request = "POST" ->
  formData request = Ret fd ->
  truthy_entry (token_of fd) = false ->
  handler worker_cors_complete P request env s =
    (Ret (WorkerCorsComplete.jsonResponse
            (JObj [("success", JBool false); ("error", JStr "Missing Turnstile token")])
            400),
     emit EvFormData s).
Proof.
  intros Hm Hfd Htok. unfold token_of in Htok.
  destruct (handler worker_cors_complete P request env s) as [o s'] eqn:Hrun.
  post_cases Hm Hrun; same_form; try congruence.
  reflexivity.
Qed.

Lemma missing_token_answered_400_witness :
  handler worker_cors_complete accepting post_tokenless env0 initial =
    (Ret (WorkerCorsComplete.jsonResponse
            (JObj [("success", JBool false); ("error", JStr "Missing Turnstile token")])
            400),
     emit EvFormData initial).
Proof.
  apply (missing_token_answered_400 accepting post_tokenless env0 tokenless_form initial);
    reflexivity.
Defined.

(** A token the service rejects is answered with status 403 and the fixed
    body [{success: false, error: "Invalid Turnstile token"}], whatever else
    the service said; nothing is drawn or written. *)
Theorem invalid_token_answered_403 (P : Platform) (request : Request)
    (env : Env) (fd : FormData) (s : State) :
  method request = "POST" ->
  formData request = Ret fd ->
  truthy_entry (token_of fd) = true ->
  verdict worker_cors_complete P env fd = Some false ->
  exists s',
    handler worker_cors_complete P request env s =
      (Ret (WorkerCorsComplete.jsonResponse
              (JObj [("success", JBool false); ("error", JStr "Invalid Turnstile token")])
              403),
       s') /\
    kv s' = kv s /\ uuid_count s' = uuid_count s.
Proof.
  intros Hm Hfd Htok Hv. unfold token_of in Htok.
  destruct (handler worker_cors_complete P request env s) as [o s'] eqn:Hrun.
  post_cases Hm Hrun; same_form; try congruence; try verdict_conflict.
  eexists. repeat split.
Qed.

Lemma invalid_token_answered_403_witness :
  exists s',
    handler worker_cors_complete rejecting post_alice env0 initial =
      (Ret (WorkerCorsComplete.jsonResponse
              (JObj [("success", JBool false); ("error", JStr "Invalid Turnstile token")])
              403),
       s') /\
    kv s' = kv initial /\ uuid_count s' = uuid_count initial.
Proof.
  apply (invalid_token_answered_403 rejecting post_alice env0 alice_form initial);
    reflexivity.
Defined.

(** Whatever happens to a POST, [handlePost] returns a JSON response built
    by [jsonResponse]: its status is 200, 400, 403 or 500, its [success] field
    says whether the status is 200, a failure carries an [error] string, the
    content type and the three cross-origin headers are set, and the
    namespace is not touched. *)
Theorem handlePost_response_shape (P : Platform) (request : Request) (s : State) :
  exists r s' v,
    WorkerCorsComplete.handlePost P request s = (Ret r, s') /\
    body r = BodyJSON v /\
    In (status r) [200; 400; 403; 500] /\
    field v "success" = Some (JBool (Z.eqb (status r) 200)) /\
    (status r <> 200 -> exists msg, field v "error" = Some (JStr msg)) /\
    Headers_get (headers r) "content-type" = Some "application/json" /\
    Headers_get (headers r) "access-control-allow-origin" = Some "*" /\
    Headers_get (headers r) "access-control-allow-methods" = Some "POST, OPTIONS" /\
    Headers_get (headers r) "access-control-allow-headers" = Some allow_headers_list /\
    kv s' = kv s.
Proof.
  destruct (WorkerCorsComplete.handlePost P request s) as [o s'] eqn:Hrun.
  unfold WorkerCorsComplete.handlePost in Hrun. run_in Hrun.
  repeat (split_run Hrun; run_in Hrun).
  all: inversion Hrun; subst; clear Hrun.
  all: do 3 eexists; split; [reflexivity |]; split; [reflexivity |].
  all: cbn; repeat split; eauto 6; try discriminate.
  all: intros Hne; try (exfalso; apply Hne; reflexivity); eauto.
Qed.

(** ** The drafts without verification *)

(** worker-fix-guide.js and debug-worker.js acknowledge every POST whose form
    parses, whatever its token and even without one: status 200, the
    identifier just drawn, the cross-origin header; they make no outbound
    call and no write. *)
Theorem guide_accepts_unverified (g : GuideDraft) (P : Platform)
    (request : Request) (fd : FormData) (s s' : State) (o : outcome Response) :
  method request = "POST" ->
  formData request = Ret fd ->
  guide_handler g P request s = (o, s') ->
  exists r evs,
    o = Ret r /\ status r = 200 /\
    body r = ack_body (uuid_source P (uuid_count s)) /\
    has_header r "Access-Control-Allow-Origin" = true /\
    trace s' = (trace s ++ evs)%list /\
    fetch_calls evs = [] /\ kv_puts evs = [] /\
    kv s' = kv s /\ uuid_count s' = S (uuid_count s).
Proof.
  intros Hm Hfd Hrun.
  destruct g; unfold guide_handler, WorkerFixGuide.handleRequest,
    DebugWorker.handleRequest in Hrun; rewrite Hm in Hrun; run_in Hrun.
  all: rewrite Hfd in Hrun; run_in Hrun.
  all: repeat (split_run Hrun; run_in Hrun).
  all: inversion Hrun; subst; clear Hrun; cbn [trace kv uuid_count].
  all: rewrite <- ?app_assoc; cbn [app].
  all: do 2 eexists; split; [reflexivity |].
  all: repeat split.
Qed.

Lemma guide_accepts_unverified_witness :
  exists r evs,
    (guide_handler debug_worker rejecting post_tokenless initial).1 = Ret r /\
    status r = 200 /\
    body r = ack_body (uuid_source rejecting (uuid_count initial)) /\
    has_header r "Access-Control-Allow-Origin" = true /\
    trace (guide_handler debug_worker rejecting post_tokenless initial).2 =
      (trace initial ++ evs)%list /\
    fetch_calls evs = [] /\ kv_puts evs = [] /\
    kv (guide_handler debug_worker rejecting post_tokenless initial).2 = kv initial /\
    uuid_count (guide_handler debug_worker rejecting post_tokenless initial).2 =
      S (uuid_count initial).
Proof.
  apply (guide_accepts_unverified debug_worker rejecting post_tokenless tokenless_form
           initial).
  - reflexivity.
  - reflexivity.
  - vm_compute. reflexivity.
Defined.

(** When the form of a POST does not parse, the two drafts catch the error and
    answer with status 500 and a body whose [error] is the message of the
    thrown error itself, with the allow-origin header but without the
    allow-methods one; nothing is called, drawn or written. *)
Theorem guide_parse_fault_500 (g : GuideDraft) (P : Platform)
    (request : Request) (e : JsError) (s s' : State) (o : outcome Response) :
  method request = "POST" ->
  formData request = Throw e ->
  guide_handler g P request s = (o, s') ->
  exists r evs,
    o = Ret r /\ status r = 500 /\
    body r = BodyJSON (JObj [("success", JBool false); ("error", JStr (err_message e))]) /\
    has_header r "Access-Control-Allow-Origin" = true /\
    has_header r "Access-Control-Allow-Methods" = false /\
    trace s' = (trace s ++ evs)%list /\
    fetch_calls evs = [] /\ kv_puts evs = [] /\
    kv s' = kv s /\ uuid_count s' = uuid_count s.
Proof.
  intros Hm Hfd Hrun.
  destruct g; unfold guide_handler, WorkerFixGuide.handleRequest,
    DebugWorker.handleRequest in Hrun; rewrite Hm in Hrun; run_in Hrun.
  all: rewrite Hfd in Hrun; run_in Hrun.
  all: inversion Hrun; subst; clear Hrun; cbn [trace kv uuid_count].
  all: rewrite <- ?app_assoc; cbn [app].
  all: do 2 eexists; split; [reflexivity |].
  all: repeat split.
Qed.

Lemma guide_parse_fault_500_witness :
  exists r evs,
    (guide_handler worker_fix_guide accepting post_unparsable initial).1 = Ret r /\
    status r = 500 /\
    body r = BodyJSON (JObj [("success", JBool false);
                             ("error", JStr (err_message
                                (mkError "TypeError" "Unrecognized Content-Type header value")))]) /\
    has_header r "Access-Control-Allow-Origin" = true /\
    has_header r "Access-Control-Allow-Methods" = false /\
    trace (guide_handler worker_fix_guide accepting post_unparsable initial).2 =
      (trace initial ++ evs)%list /\
    fetch_calls evs = [] /\ kv_puts evs = [] /\
    kv (guide_handler worker_fix_guide accepting post_unparsable initial).2 = kv initial /\
    uuid_count (guide_handler worker_fix_guide accepting post_unparsable initial).2 =
      uuid_count initial.
Proof.
  apply (guide_parse_fault_500 worker_fix_guide accepting post_unparsable
           (mkError "TypeError" "Unrecognized Content-Type header value") initial).
  - reflexivity.
  - reflexivity.
  - vm_compute. reflexivity.
Defined.

(** The two drafts never throw, never call out and never write, whatever the
    method: a request is answered with status 204 (OPTIONS, with the three
    cross-origin headers and a max-age), 200 or 500 (POST), or 405 (any other
    method, without the cross-origin header). *)
Theorem guide_dispatch (g : GuideDraft) (P : Platform) (request : Request) (s : State) :
  exists r s' evs,
    guide_handler g P request s = (Ret r, s') /\
    trace s' = (trace s ++ evs)%list /\
    fetch_calls evs = [] /\ kv_puts evs = [] /\ kv s' = kv s /\
    (method request = "OPTIONS" ->
       status r = 204 /\ body r = BodyNull /\
       has_header r "Access-Control-Allow-Origin" = true /\
       has_header r "Access-Control-Allow-Methods" = true /\
       has_header r "Access-Control-Allow-Headers" = true /\
       Headers_get (headers r) "Access-Control-Max-Age" = Some "86400" /\
       uuid_count s' = uuid_count s) /\
    (method request = "POST" -> status r = 200 \/ status r = 500) /\
    (method request <> "OPTIONS" -> method request <> "POST" ->
       status r = 405 /\ body r = BodyText "Method not allowed" /\
       has_header r "Access-Control-Allow-Origin" = false).
Proof.
  destruct (guide_handler g P request s) as [o s'] eqn:Hrun.
  destruct g; unfold guide_handler, WorkerFixGuide.handleRequest,
    DebugWorker.handleRequest in Hrun.
  all: destruct (String.eqb (method request) "OPTIONS") eqn:Eo;
    [apply String.eqb_eq in Eo | apply String.eqb_neq in Eo].
  all: destruct (String.eqb (method request) "POST") eqn:Ep;
    [apply String.eqb_eq in Ep | apply String.eqb_neq in Ep].
  all: try (rewrite Eo in Ep; discriminate Ep).
  all: cbv beta iota zeta delta
         [mbind M_bind mret M_ret try_catch settle request_formData
          crypto_randomUUID Date_toISOString console emit] in Hrun;
    cbn [trace kv uuid_count fst snd] in Hrun.
  all: repeat (split_run Hrun; cbn [trace kv uuid_count fst snd] in Hrun).
  all: inversion Hrun; subst; clear Hrun; cbn [trace kv uuid_count].
  all: rewrite <- ?app_assoc; cbn [app].
  all: do 3 eexists; split; [reflexivity |].
  all: split; [try reflexivity; symmetry; apply app_nil_r |].
  all: repeat split; try congruence; try contradiction; cbn; auto.
Qed.

(** ** Samples for the rejections and the other methods *)

Lemma rejection_config_example_witness :
  exists r s',
    handler config_example rejecting post_alice env0 initial = (Ret r, s') /\
    rejects_as_specified (Ret r) /\
    body r = BodyJSON (JObj [("success", JBool false);
                             ("error", JStr "Turnstile verification failed")]) /\
    kv s' = kv initial.
Proof.
  apply (rejection_config_example rejecting post_alice env0 alice_form initial);
    reflexivity.
Defined.

Lemma rejection_part_000_details_witness :
  exists r s' verification,
    handler part_000 rejecting post_alice env0 initial = (Ret r, s') /\
    network rejecting siteverify_url (verification_call part_000 env0 (token_of alice_form))
      = Ret {| json_result := Ret verification |} /\
    status r = 403 /\
    body r = BodyJSON (JObj [("success", JBool false);
                             ("error", JStr "Turnstile verification failed");
                             ("details", verification)]) /\
    has_header r "Access-Control-Allow-Origin" = true /\
    kv s' = kv initial.
Proof.
  apply (rejection_part_000_details rejecting post_alice env0 alice_form initial);
    reflexivity.
Defined.

Lemma method_not_allowed_with_cors_witness :
  exists r,
    handler part_000 accepting get_request env0 initial = (Ret r, initial) /\
    status r = 405 /\
    body r = BodyText "Method Not Allowed" /\
    has_header r "Access-Control-Allow-Origin" = true.
Proof.
  apply (method_not_allowed_with_cors part_000 accepting get_request env0 initial).
  - left. reflexivity.
  - intros H. discriminate H.
  - intros H. discriminate H.
Defined.

Lemma worker_cors_complete_calls_witness :
  exists evs,
    trace (sample_run worker_cors_complete accepting post_alice).2 =
      (trace initial ++ evs)%list /\
    kv_puts evs = [] /\
    fetch_calls evs =
      if truthy_entry (token_of alice_form)
      then [(siteverify_url,
             verification_call worker_cors_complete env0 (token_of alice_form))]
      else [].
Proof.
  apply (worker_cors_complete_calls accepting post_alice env0 alice_form initial _
           (sample_run worker_cors_complete accepting post_alice).1).
  - reflexivity.
  - reflexivity.
  - vm_compute. reflexivity.
Defined.

(** ** Regular expressions: the matcher decides the language *)

Lemma lang_Void_inv (s : jsstring) : ~ lang Void s.
Proof. intros H. inversion H. Qed.

Lemma lang_Eps_inv (s : jsstring) : lang Eps s -> s = [].
Proof. intros H. inversion H. reflexivity. Qed.

Lemma lang_Class_inv (p : N -> bool) (s : jsstring) :
  lang (Class p) s -> exists c, s = [c] /\ p c = true.
Proof. intros H. inversion H; subst. eauto. Qed.

Lemma lang_Cat_inv (r1 r2 : regex) (s : jsstring) :
  lang (Cat r1 r2) s -> exists s1 s2, s = (s1 ++ s2)%list /\ lang r1 s1 /\ lang r2 s2.
Proof. intros H. inversion H; subst. eauto. Qed.

Lemma lang_Alt_inv (r1 r2 : regex) (s : jsstring) :
  lang (Alt r1 r2) s -> lang r1 s \/ lang r2 s.
Proof. intros H. inversion H; subst; auto. Qed.

Lemma cat_lang (r1 r2 : regex) (s : jsstring) : lang (cat r1 r2) s <-> lang (Cat r1 r2) s.
Proof.
  split.
  - intros H.
    destruct r1, r2; cbn in H; try exact H; try (exfalso; exact (lang_Void_inv _ H)).
    all: try (rewrite <- (app_nil_l s); apply lang_cat; [apply lang_eps | exact H]).
    all: try (rewrite <- (app_nil_r s); apply lang_cat; [exact H | apply lang_eps]).
  - intros H. apply lang_Cat_inv in H. destruct H as (s1 & s2 & -> & H1 & H2).
    destruct r1, r2; cbn; try (apply lang_cat; assumption);
      try (exfalso; eapply lang_Void_inv; eassumption).
    all: try (apply lang_Eps_inv in H1; subst; exact H2).
    all: try (apply lang_Eps_inv in H2; subst; rewrite app_nil_r; exact H1).
Qed.

Lemma alt_lang (r1 r2 : regex) (s : jsstring) : lang (alt r1 r2) s <-> lang (Alt r1 r2) s.
Proof.
  split.
  - intros H. destruct r1, r2; cbn in H; try exact H;
      try (apply lang_alt_r; exact H); try (apply lang_alt_l; exact H).
  - intros H. apply lang_Alt_inv in H.
    destruct H as [H | H]; destruct r1, r2; cbn;
      try (exfalso; eapply lang_Void_inv; eassumption);
      try exact H; try (apply lang_alt_l; exact H); try (apply lang_alt_r; exact H).
Qed.

Lemma nullable_lang (r : regex) : nullable r = true <-> lang r [].
Proof.
  induction r; cbn.
  - split; [discriminate | intros H; inversion H].
  - split; [intros _; constructor | reflexivity].
  - split; [discriminate | intros H; inversion H].
  - rewrite andb_true_iff, IHr1, IHr2. split.
    + intros [H1 H2]. change (@nil N) with (@nil N ++ [])%list. constructor; assumption.
    + intros H. apply lang_Cat_inv in H. destruct H as (s1 & s2 & E & H1 & H2).
      symmetry in E. apply app_eq_nil in E. destruct E; subst. split; assumption.
  - rewrite orb_true_iff, IHr1, IHr2. split.
    + intros [H | H]; [apply lang_alt_l | apply lang_alt_r]; exact H.
    + apply lang_Alt_inv.
  - split; [intros _; constructor | reflexivity].
Qed.

Lemma lang_Star_cons_inv (r : regex) (c : N) (s : jsstring) :
  lang (Star r) (c :: s) ->
  exists s1 s2, s = (s1 ++ s2)%list /\ lang r (c :: s1) /\ lang (Star r) s2.
Proof.
  intros H. remember (Star r) as r' eqn:Er. remember (c :: s) as w eqn:Ew.
  revert c s Ew. induction H; intros c' s' Ew; try discriminate Er.
  - discriminate Ew.
  - inversion Er; subst. destruct s1 as [| x s1].
    + cbn in Ew. apply IHlang2; [reflexivity | exact Ew].
    + cbn in Ew. inversion Ew; subst. eauto.
Qed.

Lemma deriv_lang (r : regex) (c : N) (s : jsstring) :
  lang (deriv c r) s <-> lang r (c :: s).
Proof.
  revert s. induction r; intros s; cbn.
  - split; intros H; inversion H.
  - split; intros H; inversion H.
  - destruct (p c) eqn:Ep.
    + split.
      * intros H. apply lang_Eps_inv in H. subst. constructor. exact Ep.
      * intros H. apply lang_Class_inv in H. destruct H as (x & E & _).
        inversion E; subst. constructor.
    + split; [intros H; inversion H |].
      intros H. apply lang_Class_inv in H. destruct H as (x & E & Hp).
      inversion E; subst. congruence.
  - assert (Hleft : lang (cat (deriv c r1) r2) s <->
                    exists s1 s2, s = (s1 ++ s2)%list /\ lang r1 (c :: s1) /\ lang r2 s2).
    { rewrite cat_lang. split.
      - intros H. apply lang_Cat_inv in H. destruct H as (s1 & s2 & -> & H1 & H2).
        apply IHr1 in H1. eauto.
      - intros (s1 & s2 & -> & H1 & H2). constructor; [apply IHr1; exact H1 | exact H2]. }
    destruct (nullable r1) eqn:En.
    + rewrite alt_lang. split.
      * intros H. apply lang_Alt_inv in H. destruct H as [H | H].
        -- apply Hleft in H. destruct H as (s1 & s2 & -> & H1 & H2).
           change (c :: s1 ++ s2)%list with ((c :: s1) ++ s2)%list.
           constructor; assumption.
        -- apply IHr2 in H. change (c :: s) with ([] ++ c :: s)%list.
           constructor; [apply nullable_lang; exact En | exact H].
      * intros H. apply lang_Cat_inv in H. destruct H as (s1 & s2 & E & H1 & H2).
        destruct s1 as [| x s1]; cbn in E.
        -- subst s2. apply lang_alt_r. apply IHr2. exact H2.
        -- inversion E; subst. apply lang_alt_l. apply Hleft. eauto.
    + rewrite Hleft. split.
      * intros (s1 & s2 & -> & H1 & H2).
        change (c :: s1 ++ s2)%list with ((c :: s1) ++ s2)%list. constructor; assumption.
      * intros H. apply lang_Cat_inv in H. destruct H as (s1 & s2 & E & H1 & H2).
        destruct s1 as [| x s1]; cbn in E.
        -- apply nullable_lang in H1. congruence.
        -- inversion E; subst. eauto.
  - rewrite alt_lang. split.
    + intros H. apply lang_Alt_inv in H.
      destruct H as [H | H]; [apply lang_alt_l, IHr1 | apply lang_alt_r, IHr2]; exact H.
    + intros H. apply lang_Alt_inv in H.
      destruct H as [H | H]; [apply lang_alt_l, IHr1 | apply lang_alt_r, IHr2]; exact H.
  - rewrite cat_lang. split.
    + intros H. apply lang_Cat_inv in H. destruct H as (s1 & s2 & -> & H1 & H2).
      apply IHr in H1. change (c :: s1 ++ s2)%list with ((c :: s1) ++ s2)%list.
      constructor; assumption.
    + intros H. apply lang_Star_cons_inv in H. destruct H as (s1 & s2 & -> & H1 & H2).
      constructor; [apply IHr; exact H1 | exact H2].
Qed.

(** [test] decides membership in the language. *)
Lemma test_lang (r : regex) (s : jsstring) : test r s = true <-> lang r s.
Proof.
  revert r. induction s as [| c s IH]; intros r; cbn.
  - apply nullable_lang.
  - rewrite IH. apply deriv_lang.
Qed.

(** ** [split] and [join] *)

Lemma split_not_nil (c : N) (s : jsstring) : split c s <> [].
Proof.
  destruct s as [| x s]; cbn; [discriminate |].
  destruct (N.eqb x c); [discriminate |]. destruct (split c s); discriminate.
Qed.

Lemma split_join (c : N) (s : jsstring) : join c (split c s) = s.
Proof.
  induction s as [| x s IH]; cbn; [reflexivity |].
  destruct (N.eqb x c) eqn:E.
  - apply N.eqb_eq in E. subst x.
    destruct (split c s) as [| p ps] eqn:Es; [exfalso; eapply split_not_nil; eassumption |].
    cbn. cbn in IH. rewrite IH. reflexivity.
  - destruct (split c s) as [| p ps] eqn:Es; [exfalso; eapply split_not_nil; eassumption |].
    destruct ps; cbn in *; rewrite <- IH; reflexivity.
Qed.

Lemma split_parts (c : N) (s : jsstring) :
  Forall (fun p => ~ In c p) (split c s).
Proof.
  induction s as [| x s IH]; cbn.
  - constructor; [intros [] | constructor].
  - destruct (N.eqb x c) eqn:E.
    + constructor; [intros [] | exact IH].
    + apply N.eqb_neq in E.
      destruct (split c s) as [| p ps]; [constructor; [| constructor] |].
      * intros [H | []]. congruence.
      * inversion IH; subst. constructor; [| assumption].
        intros [H | H]; [congruence | contradiction].
Qed.

Lemma split_app (c : N) (a b : jsstring) :
  ~ In c a -> split c (a ++ c :: b)%list = a :: split c b.
Proof.
  induction a as [| x a IH]; intros Ha; cbn.
  - rewrite N.eqb_refl. reflexivity.
  - destruct (N.eqb x c) eqn:E.
    + apply N.eqb_eq in E. exfalso. apply Ha. left. exact E.
    + rewrite IH; [reflexivity |]. intros H. apply Ha. right. exact H.
Qed.

Lemma split_none (c : N) (a : jsstring) : ~ In c a -> split c a = [a].
Proof.
  induction a as [| x a IH]; intros Ha; cbn; [reflexivity |].
  destruct (N.eqb x c) eqn:E.
  - apply N.eqb_eq in E. exfalso. apply Ha. left. exact E.
  - rewrite IH; [reflexivity |]. intros H. apply Ha. right. exact H.
Qed.

(** ** The language of [emailRegex] *)

Lemma lang_Star_class (p : N -> bool) (s : jsstring) :
  lang (Star (Class p)) s <-> forallb p s = true.
Proof.
  split.
  - intros H. remember (Star (Class p)) as r eqn:Er.
    induction H; try discriminate Er; [reflexivity |].
    inversion Er; subst. apply lang_Class_inv in H. destruct H as (c & -> & Hc).
    cbn. rewrite Hc. apply IHlang2. reflexivity.
  - induction s as [| c s IH]; cbn; intros H; [constructor |].
    apply andb_true_iff in H. destruct H as [Hc Hs].
    change (c :: s) with ([c] ++ s)%list. constructor; [constructor; exact Hc | auto].
Qed.

Lemma lang_Plus_class (p : N -> bool) (s : jsstring) :
  lang (Plus (Class p)) s <-> s <> [] /\ forallb p s = true.
Proof.
  unfold Plus. split.
  - intros H. apply lang_Cat_inv in H. destruct H as (s1 & s2 & -> & H1 & H2).
    apply lang_Class_inv in H1. destruct H1 as (c & -> & Hc).
    apply lang_Star_class in H2. cbn. rewrite Hc, H2. split; [discriminate | reflexivity].
  - intros [Hne H]. destruct s as [| c s]; [contradiction |].
    cbn in H. apply andb_true_iff in H. destruct H as [Hc Hs].
    change (c :: s) with ([c] ++ s)%list.
    constructor; [constructor; exact Hc | apply lang_Star_class; exact Hs].
Qed.

Lemma lang_UpTo_class (p : N -> bool) (n : nat) (s : jsstring) :
  lang (UpTo n (Class p)) s <-> (length s <= n)%nat /\ forallb p s = true.
Proof.
  revert s. induction n as [| n IH]; intros s; cbn.
  - split.
    + intros H. apply lang_Eps_inv in H. subst. split; [reflexivity | reflexivity].
    + intros [Hl _]. destruct s; [constructor | cbn in Hl; lia].
  - unfold Opt. split.
    + intros H. apply lang_Alt_inv in H. destruct H as [H | H].
      * apply lang_Eps_inv in H. subst. cbn. split; [lia | reflexivity].
      * apply lang_Cat_inv in H. destruct H as (s1 & s2 & -> & H1 & H2).
        apply lang_Class_inv in H1. destruct H1 as (c & -> & Hc).
        apply IH in H2. destruct H2 as [Hl Hp]. cbn. rewrite Hc, Hp. split; [lia | reflexivity].
    + intros [Hl Hp]. destruct s as [| c s]; [apply lang_alt_l; constructor |].
      cbn in Hl, Hp. apply andb_true_iff in Hp. destruct Hp as [Hc Hs].
      apply lang_alt_r. change (c :: s) with ([c] ++ s)%list.
      constructor; [constructor; exact Hc | apply IH; split; [lia | exact Hs]].
Qed.

Lemma last_snoc_units (l : jsstring) (z : N) : last (l ++ [z])%list = Some z.
Proof. apply last_snoc. Qed.

Lemma lang_label (s : jsstring) : lang label s <-> valid_label s = true.
Proof.
  unfold label, Opt. split.
  - intros H. apply lang_Cat_inv in H. destruct H as (s1 & s2 & -> & H1 & H2).
    apply lang_Class_inv in H1. destruct H1 as (a & -> & Ha).
    apply lang_Alt_inv in H2. destruct H2 as [H2 | H2].
    + apply lang_Eps_inv in H2. subst. cbn. rewrite Ha. reflexivity.
    + apply lang_Cat_inv in H2. destruct H2 as (mid & e & -> & Hm & He).
      apply lang_Class_inv in He. destruct He as (z & -> & Hz).
      apply lang_UpTo_class in Hm. destruct Hm as [Hl Hp].
      cbn [app valid_label]. rewrite Ha, last_snoc_units, Hz, forallb_app, Hp.
      cbn [forallb]. unfold is_alnum_dash at 1. rewrite Hz. cbn [orb andb].
      rewrite !andb_true_r. apply Nat.leb_le. cbn [length]. rewrite length_app. cbn. lia.
  - intros H. destruct s as [| a rest]; [discriminate |].
    cbn [valid_label] in H. repeat (apply andb_true_iff in H; destruct H as [H ?]).
    change (a :: rest) with ([a] ++ rest)%list. constructor; [constructor; exact H |].
    destruct (rev rest) as [| z mid'] eqn:Er.
    + apply (f_equal (@rev N)) in Er. rewrite rev_involutive in Er. subst rest.
      apply lang_alt_l. constructor.
    + apply (f_equal (@rev N)) in Er. rewrite rev_involutive in Er. cbn in Er. subst rest.
      rewrite last_snoc_units in *. rewrite forallb_app in *.
      match goal with Hf : (_ && _)%bool = true |- _ =>
        apply andb_true_iff in Hf; destruct Hf as [Hmid _] end.
      apply lang_alt_r. constructor; [| constructor; assumption].
      apply lang_UpTo_class. split; [| exact Hmid].
      match goal with Hl : (_ <=? 63)%nat = true |- _ => apply Nat.leb_le in Hl;
        cbn [length] in Hl; rewrite length_app in Hl; cbn in Hl end. lia.
Qed.

Lemma alnum_dash_not_sep (c : N) :
  is_alnum_dash c = true -> c <> 46%N /\ c <> 64%N.
Proof. intros H. split; intros ->; vm_compute in H; discriminate H. Qed.

Lemma local_not_at (c : N) : is_local c = true -> c <> 64%N.
Proof. intros H ->. vm_compute in H. discriminate H. Qed.

Lemma alnum_is_alnum_dash (c : N) : is_alnum c = true -> is_alnum_dash c = true.
Proof. intros H. unfold is_alnum_dash. rewrite H. reflexivity. Qed.

Lemma valid_label_units (l : jsstring) :
  valid_label l = true -> forallb is_alnum_dash l = true.
Proof.
  destruct l as [| a rest]; [discriminate |]. cbn [valid_label forallb].
  intros H. repeat (apply andb_true_iff in H; destruct H as [H ?]).
  rewrite (alnum_is_alnum_dash _ H). assumption.
Qed.

Lemma forallb_not_In (p : N -> bool) (c : N) (l : jsstring) :
  forallb p l = true -> p c = false -> ~ In c l.
Proof.
  intros H Hc Hin. rewrite forallb_forall in H. apply H in Hin. congruence.
Qed.

Lemma valid_label_no_dot (l : jsstring) : valid_label l = true -> ~ In 46%N l.
Proof.
  intros H. apply (forallb_not_In is_alnum_dash); [apply valid_label_units; exact H |].
  reflexivity.
Qed.

Lemma valid_label_no_at (l : jsstring) : valid_label l = true -> ~ In 64%N l.
Proof.
  intros H. apply (forallb_not_In is_alnum_dash); [apply valid_label_units; exact H |].
  reflexivity.
Qed.

Lemma join_cons (c : N) (p : jsstring) (parts : list jsstring) :
  join c (p :: parts) = (p ++ concat (map (cons c) parts))%list.
Proof.
  revert p. induction parts as [| q parts IH]; intros p.
  - cbn. rewrite app_nil_r. reflexivity.
  - change (join c (p :: q :: parts)) with (p ++ c :: join c (q :: parts))%list.
    rewrite IH. reflexivity.
Qed.

Lemma split_of_join (c : N) (parts : list jsstring) :
  parts <> [] -> Forall (fun p => ~ In c p) parts -> split c (join c parts) = parts.
Proof.
  induction parts as [| p parts IH]; intros Hne Hall; [contradiction |].
  inversion Hall; subst. destruct parts as [| q parts].
  - cbn. apply split_none. assumption.
  - change (join c (p :: q :: parts)) with (p ++ c :: join c (q :: parts))%list.
    rewrite split_app by assumption. rewrite IH; [reflexivity | discriminate | assumption].
Qed.

Lemma lang_dot_labels (t : jsstring) :
  lang (Star (Cat (Class (N.eqb 46)) label)) t <->
  exists labs, forallb valid_label labs = true /\ t = concat (map (cons 46%N) labs).
Proof.
  split.
  - intros H. remember (Star (Cat (Class (N.eqb 46)) label)) as r eqn:Er.
    induction H; try discriminate Er.
    + exists []. split; reflexivity.
    + inversion Er; subst. destruct (IHlang2 eq_refl) as (labs & Hv & ->).
      apply lang_Cat_inv in H. destruct H as (d & lab & -> & Hd & Hlab).
      apply lang_Class_inv in Hd. destruct Hd as (c & -> & Hc).
      apply N.eqb_eq in Hc. subst c. apply lang_label in Hlab.
      exists (lab :: labs). cbn. rewrite Hlab, Hv. split; reflexivity.
  - intros (labs & Hv & ->). induction labs as [| lab labs IH]; cbn; [constructor |].
    cbn in Hv. apply andb_true_iff in Hv. destruct Hv as [Hlab Hv].
    change (46%N :: lab ++ concat (map (cons 46%N) labs))%list
      with ((46%N :: lab) ++ concat (map (cons 46%N) labs))%list.
    constructor; [| apply IH; exact Hv].
    change (46%N :: lab) with ([46%N] ++ lab)%list.
    constructor; [constructor; reflexivity | apply lang_label; exact Hlab].
Qed.

Lemma lang_domain (d : jsstring) :
  lang (Cat label (Plus (Cat (Class (N.eqb 46)) label))) d <->
  exists lab0 lab1 labs,
    forallb valid_label (lab0 :: lab1 :: labs) = true /\ d = join 46 (lab0 :: lab1 :: labs).
Proof.
  unfold Plus. split.
  - intros H. apply lang_Cat_inv in H. destruct H as (lab0 & t & -> & H0 & Ht).
    apply lang_label in H0.
    apply lang_Cat_inv in Ht. destruct Ht as (t1 & t2 & -> & H1 & H2).
    apply lang_Cat_inv in H1. destruct H1 as (dot & lab1 & -> & Hd & H1).
    apply lang_Class_inv in Hd. destruct Hd as (c & -> & Hc).
    apply N.eqb_eq in Hc. subst c. apply lang_label in H1.
    apply lang_dot_labels in H2. destruct H2 as (labs & Hv & ->).
    exists lab0, lab1, labs. split.
    + cbn. rewrite H0, H1, Hv. reflexivity.
    + rewrite join_cons. cbn. reflexivity.
  - intros (lab0 & lab1 & labs & Hv & ->).
    cbn [forallb] in Hv. apply andb_true_iff in Hv. destruct Hv as [H0 Hv].
    apply andb_true_iff in Hv. destruct Hv as [H1 Hv].
    rewrite join_cons. cbn [map concat].
    constructor; [apply lang_label; exact H0 |].
    change ((46%N :: lab1) ++ concat (map (cons 46%N) labs))%list
      with (([46%N] ++ lab1) ++ concat (map (cons 46%N) labs))%list.
    constructor.
    + constructor; [constructor; reflexivity | apply lang_label; exact H1].
    + apply lang_dot_labels. exists labs. split; [exact Hv | reflexivity].
Qed.

Lemma forallb_valid_no_dot (labs : list jsstring) :
  forallb valid_label labs = true -> Forall (fun p => ~ In 46%N p) labs.
Proof.
  intros H. apply List.Forall_forall. intros p Hp. apply valid_label_no_dot.
  rewrite forallb_forall in H. apply H. exact Hp.
Qed.

Lemma join_valid_no_at (labs : list jsstring) :
  forallb valid_label labs = true -> ~ In 64%N (join 46 labs).
Proof.
  induction labs as [| p labs IH]; intros H; [intros [] |].
  cbn in H. apply andb_true_iff in H. destruct H as [Hp H].
  destruct labs as [| q labs]; [cbn; apply valid_label_no_at; exact Hp |].
  change (join 46 (p :: q :: labs)) with (p ++ 46%N :: join 46 (q :: labs))%list.
  intros Hin. apply in_app_or in Hin. destruct Hin as [Hin | [Hin | Hin]].
  - exact (valid_label_no_at _ Hp Hin).
  - discriminate Hin.
  - exact (IH H Hin).
Qed.

(** ** [emailRegex], read structurally *)

(** [emailRegex] accepts exactly the strings made of a non-empty local part
    of the allowed characters, one [@], and two or more labels separated by
    dots, each of 1 to 63 letters, digits and hyphens with no hyphen first or
    last. *)
Theorem emailRegex_accepts_exactly (s : jsstring) :
  test emailRegex s = email_shape s.
Proof.
  apply eq_true_iff_eq. rewrite test_lang. unfold emailRegex, email_shape. split.
  - intros H. apply lang_Cat_inv in H. destruct H as (l & t & -> & Hl & Ht).
    apply lang_Plus_class in Hl. destruct Hl as [Hne Hloc].
    apply lang_Cat_inv in Ht. destruct Ht as (a & d & -> & Ha & Hd).
    apply lang_Class_inv in Ha. destruct Ha as (c & -> & Hc).
    apply N.eqb_eq in Hc. subst c.
    apply lang_domain in Hd. destruct Hd as (lab0 & lab1 & labs & Hv & ->).
    cbn [app]. rewrite split_app
      by (apply (forallb_not_In is_local); [exact Hloc | reflexivity]).
    rewrite split_none by (apply join_valid_no_at; exact Hv).
    rewrite split_of_join by (discriminate || apply forallb_valid_no_dot; exact Hv).
    rewrite Hloc, Hv. cbn [length Nat.leb andb].
    destruct l; [contradiction | reflexivity].
  - intros H.
    destruct (split 64 s) as [| l [| d [| x xs]]] eqn:Es; try discriminate H.
    repeat (apply andb_true_iff in H; destruct H as [H ?]).
    assert (Es' : s = (l ++ 64%N :: d)%list).
    { rewrite <- (split_join 64 s), Es. reflexivity. }
    subst s. constructor.
    + apply lang_Plus_class. split; [| assumption].
      intros ->. discriminate H.
    + change (64%N :: d) with ([64%N] ++ d)%list.
      constructor; [constructor; reflexivity |].
      apply lang_domain.
      destruct (split 46 d) as [| lab0 [| lab1 labs]] eqn:Ed;
        try (match goal with Hl : (2 <=? _)%nat = true |- _ => discriminate Hl end).
      exists lab0, lab1, labs. split; [assumption |].
      rewrite <- Ed. symmetry. apply split_join.
Qed.

(** ** sanitizeString *)

Lemma In_replace_all (x c : N) (rep s : jsstring) :
  In x (replace_all c rep s) -> (In x s /\ x <> c) \/ In x rep.
Proof.
  unfold replace_all. intros H. apply in_flat_map in H. destruct H as (y & Hy & Hx).
  destruct (N.eqb y c) eqn:E.
  - right. exact Hx.
  - apply N.eqb_neq in E. destruct Hx as [-> | []]. left. split; assumption.
Qed.

Lemma replace_all_absent (c : N) (rep s : jsstring) :
  ~ In c s -> replace_all c rep s = s.
Proof.
  induction s as [| x s IH]; intros H; cbn; [reflexivity |].
  destruct (N.eqb x c) eqn:E.
  - apply N.eqb_eq in E. exfalso. apply H. left. exact E.
  - cbn. f_equal. apply IH. intros Hin. apply H. right. exact Hin.
Qed.

Lemma filter_keep_all (p : N -> bool) (s : list N) :
  forallb p s = true -> filter (fun c => p c = true) s = s.
Proof.
  induction s as [| x s IH]; intros H; [reflexivity |].
  cbn [forallb] in H. apply andb_true_iff in H. destruct H as [Hx Hs].
  rewrite filter_cons_True by exact Hx. f_equal. apply IH. exact Hs.
Qed.

Lemma In_filter_units (p : N -> Prop) `{forall c, Decision (p c)} (x : N) (s : list N) :
  In x (filter p s) -> In x s /\ p x.
Proof.
  intros Hin. apply list_elem_of_In in Hin. apply list_elem_of_filter in Hin.
  destruct Hin as [Hp Hin]. apply list_elem_of_In in Hin. split; assumption.
Qed.

Lemma In_take (x : N) (n : nat) (s : list N) : In x (take n s) -> In x s.
Proof.
  revert n. induction s as [| y s IH]; intros [| n]; cbn; try contradiction.
  intros [-> | H]; [left; reflexivity | right; eapply IH; exact H].
Qed.

Lemma trimStart_keep (s : jsstring) :
  match s with [] => True | c :: _ => is_whitespace c = false end -> trimStart s = s.
Proof. destruct s as [| c s]; cbn; [reflexivity |]. intros ->. reflexivity. Qed.

Lemma trim_keep (s : jsstring) :
  forallb (fun c => negb (is_whitespace c)) s = true -> trim s = s.
Proof.
  intros H. unfold trim, trimEnd.
  assert (Hs : trimStart s = s).
  { apply trimStart_keep. destruct s as [| c s]; [exact I |].
    cbn in H. apply andb_true_iff in H. destruct H as [Hc _].
    apply negb_true_iff in Hc. exact Hc. }
  rewrite Hs.
  assert (Hr : trimStart (rev s) = rev s).
  { apply trimStart_keep. destruct (rev s) as [| c r] eqn:Er; [exact I |].
    rewrite forallb_forall in H. apply negb_true_iff. apply H.
    apply in_rev. rewrite Er. left. reflexivity. }
  rewrite Hr. apply rev_involutive.
Qed.

(** [sanitizeString] never returns more than [maxLength] code units. *)
Theorem sanitizeString_length (input : jsval) (maxLength : nat) :
  (length (Security.sanitizeString input maxLength) <= maxLength)%nat.
Proof.
  unfold Security.sanitizeString. destruct input as [| | [| c s]]; cbn [length]; try lia.
  match goal with |- context [(maxLength <? length ?e)%nat] =>
    destruct (Nat.ltb_spec maxLength (length e)) end.
  - rewrite length_take. lia.
  - assumption.
Qed.

(** What [sanitizeString] returns contains no [<], [>], double or single
    quote, and none of the control characters it deletes. *)
Theorem sanitizeString_no_markup (input : jsval) (maxLength : nat) :
  forallb (fun c => negb (is_markup_or_control c))
          (Security.sanitizeString input maxLength) = true.
Proof.
  apply forallb_forall. intros x Hx. apply negb_true_iff.
  unfold Security.sanitizeString in Hx. destruct input as [| | [| c s]]; try contradiction.
  assert (Hin : In x (replace_all 39 (str "&#x27;")
                        (replace_all 34 (str "&quot;")
                           (replace_all 62 (str "&gt;")
                              (replace_all 60 (str "&lt;")
                                 (replace_all 38 (str "&amp;")
                                    (filter (fun c0 => is_control c0 = false)
                                            (trim (c :: s))))))))).
  { match type of Hx with
    | In _ (if ?b then _ else _) => destruct b
    end; [| exact Hx].
    eapply In_take. exact Hx. }
  clear Hx.
  repeat (apply In_replace_all in Hin;
          destruct Hin as [[Hin ?] | Hin];
          [| cbn in Hin;
             repeat (destruct Hin as [<- | Hin]; [reflexivity |]); contradiction]).
  apply In_filter_units in Hin. destruct Hin as [_ Hc].
  unfold is_markup_or_control. rewrite Hc.
  repeat match goal with
         | H : x <> _ |- _ => apply N.eqb_neq in H; rewrite H
         end.
  reflexivity.
Qed.

(** A string without surrounding white space, without control characters and
    without any of the five escaped characters, no longer than [maxLength],
    comes back from [sanitizeString] unchanged. *)
Theorem sanitizeString_clean (s : jsstring) (maxLength : nat) :
  forallb (fun c => negb (is_whitespace c)) (firstn 1 s ++ firstn 1 (rev s))%list = true ->
  forallb (fun c => negb (is_control c || is_escaped c)) s = true ->
  (length s <= maxLength)%nat ->
  Security.sanitizeString (JsString s) maxLength = s.
Proof.
  intros Hws Hplain Hlen. unfold Security.sanitizeString, jsstring in *.
  destruct s as [| c s]; [reflexivity |].
  set (w := c :: s) in *.
  assert (Htrim : trim w = w).
  { unfold trim, trimEnd.
    rewrite forallb_app in Hws. apply andb_true_iff in Hws. destruct Hws as [Hh Hl].
    assert (Hs : trimStart w = w).
    { apply trimStart_keep. subst w. cbn in Hh. rewrite andb_true_r in Hh.
      apply negb_true_iff in Hh. exact Hh. }
    rewrite Hs.
    assert (Hr : trimStart (rev w) = rev w).
    { apply trimStart_keep. destruct (rev w) as [| z r]; [exact I |].
      cbn in Hl. rewrite andb_true_r in Hl. apply negb_true_iff in Hl. exact Hl. }
    rewrite Hr. apply rev_involutive. }
  rewrite Htrim.
  assert (Hunits : forall x, In x w -> is_control x = false /\ is_escaped x = false).
  { intros x Hx. rewrite forallb_forall in Hplain. apply Hplain in Hx.
    apply negb_true_iff, orb_false_iff in Hx. exact Hx. }
  assert (Hfilter : filter (fun c0 => is_control c0 = false) w = w).
  { rewrite <- (filter_keep_all (fun c0 => negb (is_control c0)) w) at 2.
    - apply list_filter_iff. intros x. rewrite negb_true_iff. reflexivity.
    - apply forallb_forall. intros x Hx. apply negb_true_iff. apply Hunits. exact Hx. }
  rewrite Hfilter.
  assert (Habsent : forall k, is_escaped k = true -> ~ In k w).
  { intros k Hk Hin. apply Hunits in Hin. destruct Hin as [_ Hin]. congruence. }
  rewrite (replace_all_absent 38 _ w) by (apply Habsent; reflexivity).
  rewrite (replace_all_absent 60 _ w) by (apply Habsent; reflexivity).
  rewrite (replace_all_absent 62 _ w) by (apply Habsent; reflexivity).
  rewrite (replace_all_absent 34 _ w) by (apply Habsent; reflexivity).
  rewrite (replace_all_absent 39 _ w) by (apply Habsent; reflexivity).
  destruct (Nat.ltb_spec maxLength (length w)); [lia | reflexivity].
Qed.

Lemma sanitizeString_clean_witness :
  Security.sanitizeString (JsString (str "Acme Corp")) 100 = str "Acme Corp".
Proof.
  apply (sanitizeString_clean (str "Acme Corp") 100).
  - reflexivity.
  - reflexivity.
  - vm_compute. lia.
Defined.

(** ** validateEmail *)

Lemma alnum_dash_local (c : N) : is_alnum_dash c = true -> is_local c = true.
Proof.
  unfold is_alnum_dash, is_local. intros H. apply orb_true_iff in H.
  destruct H as [H | H]; [rewrite H; reflexivity |].
  apply N.eqb_eq in H. subst c. reflexivity.
Qed.

Lemma join_valid_local (labs : list jsstring) :
  forallb valid_label labs = true -> forallb is_local (join 46 labs) = true.
Proof.
  induction labs as [| p labs IH]; intros H; [reflexivity |].
  cbn [forallb] in H. apply andb_true_iff in H. destruct H as [Hp H].
  assert (Hpl : forallb is_local p = true).
  { apply forallb_forall. intros x Hx. apply alnum_dash_local.
    apply valid_label_units in Hp. rewrite forallb_forall in Hp. apply Hp. exact Hx. }
  destruct labs as [| q labs]; [exact Hpl |].
  change (join 46 (p :: q :: labs)) with (p ++ 46%N :: join 46 (q :: labs))%list.
  rewrite forallb_app, Hpl. cbn [forallb andb].
  rewrite (IH H). reflexivity.
Qed.

(** Every code unit of a string with the shape of an email is one of the
    characters of the local part or [@]. *)
Lemma email_shape_units (s : jsstring) :
  email_shape s = true -> forallb is_email_unit s = true.
Proof.
  unfold email_shape. intros H.
  destruct (split 64 s) as [| l [| d [| x xs]]] eqn:Es; try discriminate H.
  repeat (apply andb_true_iff in H; destruct H as [H ?]).
  assert (Es' : s = (l ++ 64%N :: d)%list).
  { rewrite <- (split_join 64 s), Es. reflexivity. }
  subst s. rewrite forallb_app. cbn [forallb].
  assert (Hd : forallb is_local d = true).
  { rewrite <- (split_join 46 d). apply join_valid_local. assumption. }
  apply andb_true_iff. split; [| apply andb_true_iff; split; [reflexivity |]].
  - apply forallb_forall. intros x Hx. unfold is_email_unit.
    match goal with Hl : forallb is_local l = true |- _ =>
      rewrite forallb_forall in Hl; rewrite (Hl x Hx) end. reflexivity.
  - apply forallb_forall. intros x Hx. unfold is_email_unit.
    rewrite forallb_forall in Hd. rewrite (Hd x Hx). reflexivity.
Qed.

Lemma email_unit_below_128 (c : N) : is_email_unit c = true -> (c < 128)%N.
Proof.
  unfold is_email_unit, is_local, is_alnum. cbn [existsb str map list_ascii_of_string].
  rewrite !orb_true_iff, !andb_true_iff, !N.leb_le, !N.eqb_eq.
  cbn. intros H. repeat (destruct H as [H | H]); try lia; try discriminate H.
Qed.

Lemma below_128_cases (p : N -> bool) :
  forallb p (map N.of_nat (seq 0 128)) = true ->
  forall c, (c < 128)%N -> p c = true.
Proof.
  intros H c Hc. rewrite forallb_forall in H. apply H.
  apply in_map_iff. exists (N.to_nat c). split; [apply N2Nat.id |].
  apply in_seq. lia.
Qed.

(** None of the characters of an accepted email is white space, a control
    character, or one of [<], [>] and the double quote. *)
Lemma email_unit_plain (c : N) :
  is_email_unit c = true ->
  is_whitespace c = false /\ is_control c = false /\
  c <> 60%N /\ c <> 62%N /\ c <> 34%N.
Proof.
  intros H. pose proof (email_unit_below_128 c H) as Hc.
  assert (Hall : (implb (is_email_unit c)
                    (negb (is_whitespace c) && negb (is_control c)
                     && negb (N.eqb c 60) && negb (N.eqb c 62) && negb (N.eqb c 34)))%bool
                 = true).
  { apply (below_128_cases
             (fun c => implb (is_email_unit c)
                         (negb (is_whitespace c) && negb (is_control c)
                          && negb (N.eqb c 60) && negb (N.eqb c 62)
                          && negb (N.eqb c 34)))%bool); [vm_compute; reflexivity | exact Hc]. }
  rewrite H in Hall. cbn [implb] in Hall.
  repeat (apply andb_true_iff in Hall; destruct Hall as [Hall ?]).
  repeat match goal with
         | Hn : negb _ = true |- _ => apply negb_true_iff in Hn
         end.
  repeat split; try assumption; apply N.eqb_neq; assumption.
Qed.

(** What passes [emailRegex] is ASCII. *)
Lemma emailRegex_ascii (s : jsstring) :
  test emailRegex s = true -> forallb (fun c => N.ltb c 128) s = true.
Proof.
  rewrite emailRegex_accepts_exactly. intros H. apply email_shape_units in H.
  apply forallb_forall. intros x Hx. apply N.ltb_lt. apply email_unit_below_128.
  rewrite forallb_forall in H. apply H. exact Hx.
Qed.

(** [validateEmail] accepts exactly the strings of at most 254 code units
    that have the shape of an email and whose domain, in lower case, does not
    end with one of the three blocked domains.  The lists of whitelisted and
    of generic domains have no influence on the result. *)
Theorem validateEmail_accepts_exactly (email : jsval) :
  Security.validateEmail email = true <->
  exists s local domain,
    email = JsString s /\
    (length s <= 254)%nat /\
    email_shape s = true /\
    split 64 s = [local; domain] /\
    forallb (fun blocked => negb (endsWith (toLowerCase domain) blocked))
            [str "tempmail.com"; str "throwaway.com"; str "guerrillamail.com"] = true.
Proof.
  split.
  - intros H. destruct email as [| | [| c s]]; try discriminate H.
    unfold Security.validateEmail in H.
    destruct (Nat.ltb_spec CONFIG.maxEmailLength (length (c :: s))) as [| Hlen];
      [discriminate H |].
    destruct (test emailRegex (c :: s)) eqn:Et; [| discriminate H].
    rewrite emailRegex_accepts_exactly in Et. cbn [negb] in H.
    pose proof Et as Hshape. unfold email_shape in Et.
    destruct (split 64 (c :: s)) as [| l [| d [| x xs]]] eqn:Es; try discriminate Et.
    cbn [nth_error option_map Security.domain_endsWith] in H.
    exists (c :: s), l, d. repeat split; try assumption.
    match type of H with
    | (if ?b then _ else _) = true => destruct b eqn:Eb; [discriminate H |]
    end.
    cbn [existsb] in Eb. cbn [forallb].
    repeat (apply orb_false_iff in Eb; destruct Eb as [? Eb]).
    repeat match goal with
           | Hf : endsWith _ _ = false |- _ => rewrite Hf; clear Hf
           end.
    reflexivity.
  - intros (s & l & d & -> & Hlen & Hshape & Es & Hb).
    destruct s as [| c s]; [discriminate Es |].
    unfold Security.validateEmail.
    destruct (Nat.ltb_spec CONFIG.maxEmailLength (length (c :: s))) as [Hgt |];
      [unfold CONFIG.maxEmailLength in Hgt; lia |].
    rewrite emailRegex_accepts_exactly, Hshape. cbn [negb].
    rewrite Es. cbn [nth_error option_map Security.domain_endsWith].
    cbn [forallb] in Hb.
    repeat (apply andb_true_iff in Hb; destruct Hb as [?%negb_true_iff Hb]).
    cbn [existsb].
    repeat match goal with
           | Hf : endsWith _ _ = false |- _ => rewrite Hf; clear Hf
           end.
    cbn [orb]. repeat match goal with |- (if ?b then _ else _) = _ => destruct b end;
      reflexivity.
Qed.

(** An accepted email goes through [sanitizeString] with only [&] and the
    single quote escaped, then cut at 254 code units; without those two
    characters it is transmitted as typed. *)
Theorem validated_email_sanitized (s : jsstring) :
  Security.validateEmail (JsString s) = true ->
  Security.sanitizeString (JsString s) CONFIG.maxEmailLength =
    (if (CONFIG.maxEmailLength <? length (escape_amp_apos s))%nat
     then take CONFIG.maxEmailLength (escape_amp_apos s)
     else escape_amp_apos s) /\
  (~ In 38%N s -> ~ In 39%N s ->
   Security.sanitizeString (JsString s) CONFIG.maxEmailLength = s).
Proof.
  intros H. apply validateEmail_accepts_exactly in H.
  destruct H as (s' & l & d & E & Hlen & Hshape & _ & _). inversion E; subst s'.
  pose proof (email_shape_units s Hshape) as Hunits.
  assert (Hplain : forall x, In x s ->
             is_whitespace x = false /\ is_control x = false /\
             x <> 60%N /\ x <> 62%N /\ x <> 34%N).
  { intros x Hx. apply email_unit_plain. rewrite forallb_forall in Hunits.
    apply Hunits. exact Hx. }
  assert (Hmain : Security.sanitizeString (JsString s) CONFIG.maxEmailLength =
            (if (CONFIG.maxEmailLength <? length (escape_amp_apos s))%nat
             then take CONFIG.maxEmailLength (escape_amp_apos s)
             else escape_amp_apos s)).
  { unfold Security.sanitizeString, jsstring in *.
    destruct s as [| c s]; [discriminate Hshape |].
    set (w := c :: s) in *.
    assert (Htrim : trim w = w).
    { apply trim_keep. apply forallb_forall. intros x Hx. apply negb_true_iff.
      apply Hplain. exact Hx. }
    rewrite Htrim.
    assert (Hfilter : filter (fun c0 => is_control c0 = false) w = w).
    { rewrite <- (filter_keep_all (fun c0 => negb (is_control c0)) w) at 2.
      - apply list_filter_iff. intros x. rewrite negb_true_iff. reflexivity.
      - apply forallb_forall. intros x Hx. apply negb_true_iff. apply Hplain. exact Hx. }
    rewrite Hfilter.
    assert (Hnot : forall k, k = 60%N \/ k = 62%N \/ k = 34%N ->
               ~ In k (replace_all 38 (str "&amp;") w)).
    { intros k Hk Hin. apply In_replace_all in Hin. destruct Hin as [[Hin _] | Hin].
      - apply Hplain in Hin. destruct Hin as (_ & _ & H60 & H62 & H34).
        destruct Hk as [-> | [-> | ->]]; congruence.
      - cbn in Hin. destruct Hk as [-> | [-> | ->]];
          repeat (destruct Hin as [Hin | Hin]; [discriminate Hin |]); contradiction. }
    rewrite (replace_all_absent 60) by (apply Hnot; auto).
    rewrite (replace_all_absent 62) by (apply Hnot; auto).
    rewrite (replace_all_absent 34) by (apply Hnot; auto).
    reflexivity. }
  split; [exact Hmain |].
  intros Hamp Hapos. rewrite Hmain. unfold escape_amp_apos.
  rewrite (replace_all_absent 38) by exact Hamp.
  rewrite (replace_all_absent 39) by exact Hapos.
  destruct (Nat.ltb_spec CONFIG.maxEmailLength (length s)) as [Hgt |];
    [unfold CONFIG.maxEmailLength in Hgt; lia | reflexivity].
Qed.

Lemma validated_email_sanitized_witness :
  Security.sanitizeString (JsString (str "o'brien@example.com")) CONFIG.maxEmailLength =
    (if (CONFIG.maxEmailLength <? length (escape_amp_apos (str "o'brien@example.com")))%nat
     then take CONFIG.maxEmailLength (escape_amp_apos (str "o'brien@example.com"))
     else escape_amp_apos (str "o'brien@example.com")) /\
  (~ In 38%N (str "o'brien@example.com") -> ~ In 39%N (str "o'brien@example.com") ->
   Security.sanitizeString (JsString (str "o'brien@example.com")) CONFIG.maxEmailLength =
     str "o'brien@example.com").
Proof.
  apply (validated_email_sanitized (str "o'brien@example.com")).
  vm_compute. reflexivity.
Defined.

(** ** validateForm *)

Lemma trimStart_nil (s : jsstring) :
  trimStart s = [] <-> forallb is_whitespace s = true.
Proof.
  induction s as [| c s IH]; cbn; [tauto |].
  destruct (is_whitespace c); cbn; [exact IH |]. split; discriminate.
Qed.

Lemma trimStart_head (s : jsstring) (c : N) (r : jsstring) :
  trimStart s = c :: r -> is_whitespace c = false.
Proof.
  induction s as [| x s IH]; cbn; [discriminate |].
  destruct (is_whitespace x) eqn:E; [exact IH |].
  intros H. inversion H; subst. exact E.
Qed.

Lemma forallb_rev_units (p : N -> bool) (s : jsstring) :
  forallb p (rev s) = forallb p s.
Proof.
  apply eq_true_iff_eq. rewrite !forallb_forall. split; intros H x Hx; apply H.
  - apply in_rev in Hx. exact Hx.
  - apply in_rev. exact Hx.
Qed.

(** [s.trim()] is empty exactly when [s] is white space only. *)
Lemma trim_nil (s : jsstring) : trim s = [] <-> forallb is_whitespace s = true.
Proof.
  unfold trim, trimEnd. split.
  - intros H. apply (f_equal (@rev N)) in H. rewrite rev_involutive in H. cbn in H.
    apply trimStart_nil in H. rewrite forallb_rev_units in H.
    destruct (trimStart s) as [| c r] eqn:Et; [apply trimStart_nil; exact Et |].
    apply trimStart_head in Et. cbn in H. rewrite Et in H. discriminate H.
  - intros H. apply trimStart_nil in H. rewrite H. reflexivity.
Qed.

(** The honeypot: [validateForm] reports a silent rejection exactly when the
    hidden field [website-url] holds something other than white space, and
    then it returns at once, with the single error "Bot detected" and one
    console warning, without looking at the email, the company or the
    token. *)
Theorem validateForm_honeypot (formData : PageForm) (turnstileToken : jsval) :
  (silent (Security.validateForm formData turnstileToken).1 = true <->
   exists s x, PageForm_get formData "website-url" = JsString s /\
               In x s /\ is_whitespace x = false) /\
  (silent (Security.validateForm formData turnstileToken).1 = true ->
   Security.validateForm formData turnstileToken =
     ({| valid := false; errors := [str "Bot detected"]; silent := true |},
      [mkLog "warn" [LogStr (str "Bot detected via honeypot field")]])).
Proof.
  assert (Hbot : Security.isBot (PageForm_get formData "website-url") = true <->
                 exists s x, PageForm_get formData "website-url" = JsString s /\
                             In x s /\ is_whitespace x = false).
  { destruct (PageForm_get formData "website-url") as [| | [| c s]];
      unfold Security.isBot.
    1-3: split; [intros H; discriminate H
                | intros (s' & x & E & Hin & _); try discriminate E;
                  inversion E; subst; contradiction].
    split.
    - intros H. destruct (trim (c :: s)) as [| y t] eqn:Et; [cbn in H; discriminate H |].
      destruct (forallb is_whitespace (c :: s)) eqn:Ef.
      + apply trim_nil in Ef. congruence.
      + assert (Hex : existsb (fun x => negb (is_whitespace x)) (c :: s) = true).
        { clear -Ef. induction (c :: s) as [| a l IH]; [discriminate Ef |].
          cbn in *. destruct (is_whitespace a); cbn in *; [apply IH; exact Ef | reflexivity]. }
        apply existsb_exists in Hex. destruct Hex as (x & Hin & Hx).
        apply negb_true_iff in Hx. exists (c :: s), x. auto.
    - intros (s' & x & E & Hin & Hx). inversion E; subst s'.
      destruct (trim (c :: s)) as [| y t] eqn:Et; [| reflexivity].
      apply trim_nil in Et. rewrite forallb_forall in Et. apply Et in Hin. congruence. }
  assert (Hsilent : silent (Security.validateForm formData turnstileToken).1 = true <->
                    Security.isBot (PageForm_get formData "website-url") = true).
  { unfold Security.validateForm.
    destruct (Security.isBot (PageForm_get formData "website-url")); [cbn; tauto |].
    split; [| discriminate]. intros H. exfalso. revert H.
    destruct (Security.validateEmail (PageForm_get formData "email"));
      destruct (PageForm_get formData "company") as [| | [| c cs]];
      cbv beta iota zeta;
      try destruct (length (trim (c :: cs)) <? 2)%nat;
      destruct (Security.validateTurnstileToken turnstileToken) as [[|] logs];
      vm_compute; intros Hs; discriminate Hs. }
  split.
  - rewrite Hsilent. exact Hbot.
  - intros H. apply Hsilent in H. unfold Security.validateForm. rewrite H. reflexivity.
Qed.

(** Without the honeypot: the errors are, in this order, "Invalid email
    address" when [validateEmail] refuses the email, "Company name is
    required" when the trimmed company has fewer than two code units, and
    "Please complete the security verification" when
    [validateTurnstileToken] refuses the token; the form is valid exactly
    when there is none, and the rejection is never silent. *)
Theorem validateForm_errors (formData : PageForm) (turnstileToken : jsval) :
  Security.isBot (PageForm_get formData "website-url") = false ->
  let email_ok := Security.validateEmail (PageForm_get formData "email") in
  let comp_ok := company_ok (PageForm_get formData "company") in
  let token_ok := (Security.validateTurnstileToken turnstileToken).1 in
  let result := (Security.validateForm formData turnstileToken).1 in
  errors result =
    ((if email_ok then [] else [str "Invalid email address"])
     ++ (if comp_ok then [] else [str "Company name is required"])
     ++ (if token_ok then [] else [str "Please complete the security verification"]))%list /\
  valid result = (email_ok && comp_ok && token_ok)%bool /\
  silent result = false.
Proof.
  intros Hbot. cbv zeta. unfold Security.validateForm, company_ok. rewrite Hbot.
  destruct (Security.validateEmail (PageForm_get formData "email"));
    destruct (PageForm_get formData "company") as [| | [| c cs]];
    cbv beta iota zeta;
    try (rewrite Nat.leb_antisym; destruct (length (trim (c :: cs)) <? 2)%nat);
    destruct (Security.validateTurnstileToken turnstileToken) as [[|] logs];
    vm_compute; repeat split.
Qed.

Lemma validateForm_errors_witness :
  let email_ok := Security.validateEmail (PageForm_get page_form "email") in
  let comp_ok := company_ok (PageForm_get page_form "company") in
  let token_ok := (Security.validateTurnstileToken JsUndefined).1 in
  let result := (Security.validateForm page_form JsUndefined).1 in
  errors result =
    ((if email_ok then [] else [str "Invalid email address"])
     ++ (if comp_ok then [] else [str "Company name is required"])
     ++ (if token_ok then [] else [str "Please complete the security verification"]))%list /\
  valid result = (email_ok && comp_ok && token_ok)%bool /\
  silent result = false.
Proof. apply (validateForm_errors page_form JsUndefined). reflexivity. Defined.

(** ** debounce *)

Lemma tick_step_due {A : Type} (delay : Z) (t : Tick A) (st : Debounced A) :
  timer_due delay st -> timer_due delay (tick_step delay t st).1.
Proof.
  unfold timer_due. intros H. destruct t as [now args | now]; cbn.
  - unfold executedFunction. destruct (delay <=? now - lastCall st)%Z; cbn; [exact I | lia].
  - unfold timer_callback. destruct (pending st) as [[due args] |] eqn:Ep; cbn; [exact I |].
    rewrite Ep. exact I.
Qed.

Lemma tick_step_calls {A : Type} (delay t0 : Z) (t : Tick A) (rest : list (Tick A))
    (st : Debounced A) :
  timer_due delay st ->
  feasible delay t0 (t :: rest) st ->
  (tick_step delay t st).2 = [] /\ lastCall (tick_step delay t st).1 = lastCall st \/
  exists args,
    (tick_step delay t st).2 = [(tick_time t, args)] /\
    lastCall (tick_step delay t st).1 = tick_time t /\
    (lastCall st + delay <= tick_time t)%Z.
Proof.
  unfold timer_due. intros Hdue (_ & Hen & _). destruct t as [now args | now]; cbn.
  - unfold executedFunction. destruct (Z.leb_spec delay (now - lastCall st)); cbn.
    + right. exists args. repeat split. lia.
    + left. split; reflexivity.
  - destruct Hen as (due & args & Ep & Hle). unfold timer_callback. rewrite Ep in *. cbn.
    right. exists args. repeat split. lia.
Qed.

Lemma run_ticks_spaced {A : Type} (delay : Z) (ticks : list (Tick A)) :
  forall (t0 : Z) (st : Debounced A),
    timer_due delay st ->
    feasible delay t0 ticks st ->
    spaced delay (run_ticks delay ticks st).2 /\
    match (run_ticks delay ticks st).2 with
    | [] => True
    | (t, _) :: _ => (lastCall st + delay <= t)%Z
    end.
Proof.
  induction ticks as [| t rest IH]; intros t0 st Hdue Hfeas; [cbn; auto |].
  pose proof (tick_step_calls delay t0 t rest st Hdue Hfeas) as Hstep.
  pose proof (tick_step_due delay t st Hdue) as Hdue1.
  destruct Hfeas as (_ & _ & Hrest).
  specialize (IH (tick_time t) (tick_step delay t st).1 Hdue1 Hrest).
  cbn [run_ticks].
  destruct (tick_step delay t st) as [st1 calls1]. cbn [fst snd] in *.
  destruct (run_ticks delay rest st1) as [st2 calls2].
  cbn [fst snd] in *. destruct IH as [Hsp Hhead].
  destruct Hstep as [[-> Hlast] | (args & -> & Hlast & Hgap)]; cbn [app].
  - rewrite Hlast in Hhead. split; assumption.
  - rewrite Hlast in Hhead. split; [| exact Hgap].
    cbn [spaced]. split; [| exact Hsp].
    destruct calls2 as [| [t2 a2] calls2]; [exact I | lia].
Qed.

(** Whatever the clicks, two calls of the debounced function are never less
    than [delay] apart, as long as the clock does not go back and a timer does
    not fire early. *)
Theorem debounce_spacing {A : Type} (delay t0 : Z) (ticks : list (Tick A)) :
  feasible delay t0 ticks debounce ->
  spaced delay (run_ticks delay ticks debounce).2.
Proof.
  intros H. apply (run_ticks_spaced delay ticks t0 debounce); [exact I | exact H].
Qed.

Lemma debounce_spacing_witness :
  spaced CONFIG.debounceDelay (run_ticks CONFIG.debounceDelay sample_ticks debounce).2.
Proof.
  apply (debounce_spacing CONFIG.debounceDelay 0 sample_ticks).
  unfold sample_ticks, CONFIG.debounceDelay. cbn.
  repeat split; try lia; do 2 eexists; (split; [reflexivity | vm_compute; discriminate]).
Defined.

Lemma run_ticks_app {A : Type} (delay : Z) (l1 l2 : list (Tick A)) (st : Debounced A) :
  run_ticks delay (l1 ++ l2) st =
  let '(st1, calls1) := run_ticks delay l1 st in
  let '(st2, calls2) := run_ticks delay l2 st1 in
  (st2, (calls1 ++ calls2)%list).
Proof.
  revert st. induction l1 as [| t l1 IH]; intros st; cbn.
  - destruct (run_ticks delay l2 st). reflexivity.
  - destruct (tick_step delay t st) as [sa ca]. rewrite IH.
    destruct (run_ticks delay l1 sa) as [sb cb].
    destruct (run_ticks delay l2 sb) as [sc cc]. rewrite app_assoc. reflexivity.
Qed.

(** The latest click is never lost: after any schedule, its arguments either
    wait in the pending timer or were passed to the last call made. *)
Theorem debounce_keeps_latest {A : Type} (delay : Z) (ticks : list (Tick A))
    (st : Debounced A) (a : A) :
  last_invoked ticks = Some a ->
  (exists due, pending (run_ticks delay ticks st).1 = Some (due, a)) \/
  (pending (run_ticks delay ticks st).1 = None /\
   exists t, last (run_ticks delay ticks st).2 = Some (t, a)).
Proof.
  revert a. induction ticks as [| t ticks IH] using rev_ind; intros a Hlast.
  - discriminate Hlast.
  - unfold last_invoked in Hlast. rewrite omap_app in Hlast. rewrite run_ticks_app.
    destruct (run_ticks delay ticks st) as [st1 calls1] eqn:Erun. cbn [run_ticks].
    destruct t as [now args | now]; simpl omap in Hlast.
    + rewrite last_snoc in Hlast. inversion Hlast; subst args.
      cbn [tick_step]. unfold executedFunction.
      destruct (delay <=? now - lastCall st1)%Z; cbn [fst snd pending].
      * right. split; [reflexivity |]. exists now. rewrite app_nil_r. apply last_snoc.
      * left. eexists. reflexivity.
    + rewrite app_nil_r in Hlast. specialize (IH a Hlast). cbn [fst snd] in IH.
      cbn [tick_step]. unfold timer_callback.
      destruct IH as [(due & Hp) | (Hp & tl & Hl)]; rewrite Hp; cbn [fst snd pending].
      * right. split; [reflexivity |]. exists now. rewrite app_nil_r. apply last_snoc.
      * right. split; [exact Hp |]. exists tl. rewrite !app_nil_r. exact Hl.
Qed.

Lemma debounce_keeps_latest_witness :
  (exists due,
     pending (run_ticks CONFIG.debounceDelay sample_ticks debounce).1 = Some (due, "d")) \/
  (pending (run_ticks CONFIG.debounceDelay sample_ticks debounce).1 = None /\
   exists t, last (run_ticks CONFIG.debounceDelay sample_ticks debounce).2 = Some (t, "d")).
Proof.
  apply (debounce_keeps_latest CONFIG.debounceDelay sample_ticks debounce "d").
  reflexivity.
Defined.

(** ** racePatternSubmit *)

Lemma find_success_Some (keep : nat -> bool) (l : list Attempt) :
  forall (i : nat) (a : Attempt),
    find_success keep i l = Some a <->
    exists j, l !! j = Some a /\ attempt_success a = true /\ keep (i + j)%nat = true /\
              forall k b, (k < j)%nat -> l !! k = Some b ->
                          (attempt_success b && keep (i + k)%nat)%bool = false.
Proof.
  induction l as [| x l IH]; intros i a; cbn [find_success].
  - split; [discriminate | intros (j & Hj & _); discriminate Hj].
  - destruct (attempt_success x && keep i)%bool eqn:Ex.
    + split.
      * intros H. inversion H; subst x. apply andb_true_iff in Ex. destruct Ex as [Hs Hk].
        exists 0%nat. rewrite Nat.add_0_r. repeat split; try assumption.
        intros k b Hk0. lia.
      * intros (j & Hj & Hs & Hk & Hbefore). destruct j as [| j].
        -- cbn in Hj. exact Hj.
        -- specialize (Hbefore 0%nat x ltac:(lia) eq_refl).
           rewrite Nat.add_0_r in Hbefore. congruence.
    + rewrite IH. split.
      * intros (j & Hj & Hs & Hk & Hbefore). exists (S j).
        rewrite Nat.add_succ_r. repeat split; try assumption.
        intros k b Hlt Hb. destruct k as [| k].
        -- cbn in Hb. inversion Hb; subst b. rewrite Nat.add_0_r. exact Ex.
        -- cbn in Hb. rewrite Nat.add_succ_r. apply (Hbefore k b); [lia | exact Hb].
      * intros (j & Hj & Hs & Hk & Hbefore). destruct j as [| j].
        -- cbn in Hj. inversion Hj; subst x. rewrite Nat.add_0_r in Hk.
           rewrite Hs, Hk in Ex. discriminate Ex.
        -- exists j. cbn in Hj. rewrite Nat.add_succ_r in Hk.
           repeat split; try assumption.
           intros k b Hlt Hb. specialize (Hbefore (S k) b ltac:(lia) Hb).
           rewrite Nat.add_succ_r in Hbefore. exact Hbefore.
Qed.

Lemma find_success_None (keep : nat -> bool) (l : list Attempt) :
  forall (i : nat),
    find_success keep i l = None <->
    forall j b, l !! j = Some b -> (attempt_success b && keep (i + j)%nat)%bool = false.
Proof.
  induction l as [| x l IH]; intros i; cbn [find_success].
  - split; [intros _ j b Hj; discriminate Hj | reflexivity].
  - destruct (attempt_success x && keep i)%bool eqn:Ex.
    + split; [discriminate |]. intros H. specialize (H 0%nat x eq_refl).
      rewrite Nat.add_0_r in H. congruence.
    + rewrite IH. split.
      * intros H j b Hj. destruct j as [| j].
        -- cbn in Hj. inversion Hj; subst b. rewrite Nat.add_0_r. exact Ex.
        -- cbn in Hj. rewrite Nat.add_succ_r. apply H. exact Hj.
      * intros H j b Hj. specialize (H (S j) b Hj). rewrite Nat.add_succ_r in H. exact H.
Qed.

Lemma sent_to_request_for (page : Page) (edgeEndpoints : list string) (payload : Payload)
    (endpoint : string) (index : nat) :
  sent_to (request_for page edgeEndpoints payload endpoint index) = endpoint.
Proof. unfold request_for. destruct (index =? length edgeEndpoints)%nat; reflexivity. Qed.

Lemma map_sent_to_imap (g : nat -> string -> Sent) (l : list string) :
  (forall i e, sent_to (g i e) = e) -> map sent_to (imap g l) = l.
Proof.
  revert g. induction l as [| e l IH]; intros g Hg; cbn; [reflexivity |].
  rewrite Hg. f_equal. apply IH. intros i e'. apply Hg.
Qed.

Lemma race_requests_length (page : Page) (edgeEndpoints : list string) (payload : Payload) :
  length (race_requests page edgeEndpoints payload) = S (length edgeEndpoints).
Proof.
  unfold race_requests, allEndpoints. rewrite length_imap, length_app. cbn. lia.
Qed.

Lemma race_results_length (page : Page) (parse : jsstring -> option json)
    (remote : Sent -> Answer) (edgeEndpoints : list string) (payload : Payload) :
  length (race_results page parse remote edgeEndpoints payload) = S (length edgeEndpoints).
Proof. unfold race_results. rewrite length_imap. apply race_requests_length. Qed.

(** Whatever the endpoints answer, [racePatternSubmit] sends one request to
    every edge endpoint and one to the fallback.  Each edge endpoint gets the
    Turnstile token and the frontend signature; the fallback gets the
    company, the email, the GPU scale, the reference and a subject, with a
    content type as its only header: no token and none of the security
    headers. *)
Theorem race_requests_every_endpoint (page : Page) (edgeEndpoints : list string)
    (payload : Payload) :
  map sent_to (race_requests page edgeEndpoints payload) =
    (edgeEndpoints ++ [CONFIG.fallbackEndpoint])%list /\
  forall i r,
    race_requests page edgeEndpoints payload !! i = Some r ->
    if (i <? length edgeEndpoints)%nat
    then In ("cf-turnstile-response", p_turnstileToken payload) (sent_body r) /\
         In ("X-CX-Frontend-Signature", str CONFIG.frontendSignature) (sent_headers r)
    else i = length edgeEndpoints /\
         sent_to r = CONFIG.fallbackEndpoint /\
         map fst (sent_body r) = ["company"; "email"; "gpu_scale"; "reference_id"; "_subject"] /\
         sent_headers r = [("Content-Type", str "application/x-www-form-urlencoded")].
Proof.
  split.
  - unfold race_requests. apply map_sent_to_imap. intros i e. apply sent_to_request_for.
  - intros i r Hr. pose proof (lookup_lt_Some _ _ _ Hr) as Hi.
    rewrite race_requests_length in Hi.
    unfold race_requests in Hr. rewrite list_lookup_imap in Hr.
    destruct (allEndpoints edgeEndpoints !! i) as [e |] eqn:Ee; [| discriminate Hr].
    cbn in Hr. inversion Hr; subst r. unfold request_for.
    destruct (Nat.ltb_spec i (length edgeEndpoints)) as [Hlt | Hge].
    + destruct (Nat.eqb_spec i (length edgeEndpoints)); [lia |].
      cbn. split; [right; right; right; left; reflexivity | right; left; reflexivity].
    + assert (Ei : i = length edgeEndpoints) by lia. subst i.
      rewrite Nat.eqb_refl. cbn. repeat split.
      unfold allEndpoints in Ee. rewrite lookup_app_r in Ee by lia.
      rewrite Nat.sub_diag in Ee. cbn in Ee. inversion Ee. reflexivity.
Qed.

(** [racePatternSubmit] settles to the successful attempt of lowest index,
    edge endpoints before the fallback, whatever the order in which the
    answers arrive, and throws "All endpoints unavailable" exactly when no
    attempt succeeded. *)
Theorem race_first_success (page : Page) (parse : jsstring -> option json)
    (remote : Sent -> Answer) (edgeEndpoints : list string) (payload : Payload) :
  let results := race_results page parse remote edgeEndpoints payload in
  match racePatternSubmit page parse remote edgeEndpoints payload with
  | Ret a =>
      attempt_success a = true /\
      exists j, results !! j = Some a /\
                forall k b, (k < j)%nat -> results !! k = Some b -> attempt_success b = false
  | Throw e =>
      e = mkError "Error" "All endpoints unavailable. Please try again." /\
      forall j b, results !! j = Some b -> attempt_success b = false
  end.
Proof.
  cbv zeta. unfold racePatternSubmit.
  pose proof (race_results_length page parse remote edgeEndpoints payload) as Hlen.
  set (results := race_results page parse remote edgeEndpoints payload) in *.
  set (n := length edgeEndpoints) in *.
  destruct (find_success (fun idx => (idx <? n)%nat) 0 results) as [a |] eqn:E1.
  - apply find_success_Some in E1. destruct E1 as (j & Hj & Hs & Hk & Hbefore).
    cbn in Hk. apply Nat.ltb_lt in Hk. split; [exact Hs |]. exists j. split; [exact Hj |].
    intros k b Hlt Hb. specialize (Hbefore k b Hlt Hb). cbn in Hbefore.
    apply andb_false_iff in Hbefore. destruct Hbefore as [H | H]; [exact H |].
    apply Nat.ltb_ge in H. lia.
  - pose proof (proj1 (find_success_None _ _ _) E1) as Hnone1. cbn in Hnone1.
    destruct (find_success (fun idx => (idx =? n)%nat) 0 results) as [a |] eqn:E2.
    + apply find_success_Some in E2. destruct E2 as (j & Hj & Hs & Hk & _).
      cbn in Hk. apply Nat.eqb_eq in Hk. subst j. split; [exact Hs |]. exists n.
      split; [exact Hj |]. intros k b Hlt Hb. specialize (Hnone1 k b Hb).
      apply andb_false_iff in Hnone1. destruct Hnone1 as [H | H]; [exact H |].
      apply Nat.ltb_ge in H. lia.
    + pose proof (proj1 (find_success_None _ _ _) E2) as Hnone2. cbn in Hnone2.
      split; [reflexivity |]. intros j b Hb.
      pose proof (lookup_lt_Some _ _ _ Hb) as Hj. rewrite Hlen in Hj.
      specialize (Hnone1 j b Hb). specialize (Hnone2 j b Hb).
      apply andb_false_iff in Hnone1. apply andb_false_iff in Hnone2.
      destruct Hnone1 as [H | H1]; [exact H |]. destruct Hnone2 as [H | H2]; [exact H |].
      apply Nat.ltb_ge in H1. apply Nat.eqb_neq in H2. lia.
Qed.

(** A refusal by the worker does not stop a lead: when every edge endpoint
    fails to answer or answers with a status that is not [ok] (the 403 of a
    rejected token, the 500 of a fault) and the fallback answers [ok], the
    submission succeeds through the fallback. *)
Theorem race_falls_back (page : Page) (parse : jsstring -> option json)
    (remote : Sent -> Answer) (edgeEndpoints : list string) (payload : Payload) :
  (forall i r, race_requests page edgeEndpoints payload !! i = Some r ->
     (i < length edgeEndpoints)%nat ->
     (exists e, remote r = NoAnswer e) \/ (exists st text, remote r = Answered false st text)) ->
  (forall r, race_requests page edgeEndpoints payload !! (length edgeEndpoints) = Some r ->
     exists st text, remote r = Answered true st text) ->
  racePatternSubmit page parse remote edgeEndpoints payload =
    Ret (Succeeded (length edgeEndpoints) "fallback" DataOk (requestId page)).
Proof.
  intros Hprim Hfall. unfold racePatternSubmit.
  pose proof (race_requests_length page edgeEndpoints payload) as Hlen.
  set (n := length edgeEndpoints) in *.
  assert (Hres : forall i b,
             race_results page parse remote edgeEndpoints payload !! i = Some b ->
             ((i < n)%nat -> attempt_success b = false) /\
             (i = n -> b = Succeeded n "fallback" DataOk (requestId page))).
  { intros i b Hb. unfold race_results in Hb. rewrite list_lookup_imap in Hb.
    destruct (race_requests page edgeEndpoints payload !! i) as [r |] eqn:Er;
      [| discriminate Hb].
    cbn in Hb. inversion Hb; subst b. split.
    - intros Hi. destruct (Hprim i r Er Hi) as [(e & ->) | (st & text & ->)]; reflexivity.
    - intros ->. destruct (Hfall r Er) as (st & text & ->).
      unfold attempt_of. fold n. rewrite Nat.eqb_refl. reflexivity. }
  destruct (find_success (fun idx => (idx <? n)%nat) 0
              (race_results page parse remote edgeEndpoints payload)) as [a |] eqn:E1.
  - apply find_success_Some in E1. destruct E1 as (j & Hj & Hs & Hk & _).
    cbn in Hk. apply Nat.ltb_lt in Hk. apply Hres in Hj. destruct Hj as [Hj _].
    rewrite (Hj Hk) in Hs. discriminate Hs.
  - assert (Hn : exists b, race_results page parse remote edgeEndpoints payload !! n = Some b).
    { apply lookup_lt_is_Some. rewrite race_results_length. fold n. lia. }
    destruct Hn as (b & Hb). pose proof (proj2 (Hres n b Hb) eq_refl) as ->.
    assert (E2 : find_success (fun idx => (idx =? n)%nat) 0
                   (race_results page parse remote edgeEndpoints payload) =
                 Some (Succeeded n "fallback" DataOk (requestId page))).
    { apply find_success_Some. exists n. cbn. rewrite Nat.eqb_refl.
      repeat split; [exact Hb |]. intros k b' Hlt Hb'.
      apply andb_false_iff. right. apply Nat.eqb_neq. lia. }
    rewrite E2. reflexivity.
Qed.

Lemma race_falls_back_witness :
  racePatternSubmit sample_page no_json worker_rejects [worker_endpoint] sample_payload =
    Ret (Succeeded (length [worker_endpoint]) "fallback" DataOk (requestId sample_page)).
Proof.
  apply (race_falls_back sample_page no_json worker_rejects [worker_endpoint] sample_payload).
  - intros i r Hr Hi. destruct i as [| i]; [| cbn in Hi; lia].
    vm_compute in Hr. inversion Hr; subst r. right. do 2 eexists. reflexivity.
  - intros r Hr. vm_compute in Hr. inversion Hr; subst r. do 2 eexists. reflexivity.
Defined.
